(** * LiteRT-LM: sampler, call-parser helpers, conversation history and
      message serialization

    A shallow embedding of

    - [runtime/components/top_p_cpu_sampler.cc] ([ValidateTensor],
      [TopPSampler::Create], [TopPSampler::SampleToIdAndScoreBuffer]),
    - [runtime/components/tool_use/parser_common.{h,cc}]
      ([DefaultErrorListener], [StripQuotes]),
    - [runtime/conversation/conversation.h] ([GetHistory], [AccessHistory]),
    - the Kotlin [Message] / [Content] classes, and
    - [ConvertToLiteRtJsonMessage] of the OpenAI-style server,

    followed by the properties proved about them.  The first half of the file
    holds the definitions, the second half the lemmas and theorems. *)

From Stdlib Require Import ZArith List Bool Lia String Ascii DecimalString.
From Stdlib Require Import Floats.SpecFloat.
From Stdlib Require Import Sorting.Sorted Sorting.Permutation.
Import ListNotations.

Set Warnings "-register-all".

Local Open Scope string_scope.
Local Open Scope Z_scope.

(* ================================================================== *)
(** * Part I: definitions                                              *)
(* ================================================================== *)

(** ** absl::Status and absl::StatusOr *)

Module absl.

Inductive StatusCode :=
| kInvalidArgument
| kFailedPrecondition
| kCancelled
| kInternal
| kUnknown.

(** [absl::Status]: either OK or an error code with its message. *)
Inductive Status :=
| OkStatus
| Error (code : StatusCode) (message : string).

Definition ok (s : Status) : bool :=
  match s with OkStatus => true | Error _ _ => false end.

Definition InvalidArgumentError (msg : string) : Status :=
  Error kInvalidArgument msg.

(** [absl::StatusOr<T>]; the error side never holds [OkStatus] in the
    modelled code. *)
Inductive StatusOr (T : Type) :=
| Value (v : T)
| Failed (code : StatusCode) (message : string).
Arguments Value {T} v.
Arguments Failed {T} code message.

Definition status {T} (r : StatusOr T) : Status :=
  match r with Value _ => OkStatus | Failed c m => Error c m end.

(** [absl::StrCat] on an integer argument prints it in decimal. *)
Definition StrCat_int (z : Z) : string :=
  NilZero.string_of_int (Z.to_int z).

End absl.

(** ** 32-bit IEEE floats

    The C++ [float] is modelled by the standard library's [spec_float] with
    the binary32 parameters; comparisons are the IEEE ones, so every
    comparison with a NaN is false. *)

Module Float32.

Definition float := spec_float.

Definition prec : Z := 24.
Definition emax : Z := 128.

Definition zero : float := S754_zero false.
Definition one : float := Eval cbv in SFone prec emax.
Definition nan : float := S754_nan.

Definition ltb (a b : float) : bool := SFltb a b.
Definition leb (a b : float) : bool := SFleb a b.
Definition eqb (a b : float) : bool := SFeqb a b.

Definition add (a b : float) : float := SFadd prec emax a b.
Definition sub (a b : float) : float := SFsub prec emax a b.
Definition div (a b : float) : float := SFdiv prec emax a b.

Definition is_nan (a : float) : bool :=
  match a with S754_nan => true | _ => false end.



(** Conversion of a small integer literal, as in [10.0f]. *)
Definition of_Z (z : Z) : float := binary_normalize prec emax z 0 false.

(** Position of a non-NaN float in the IEEE order, as a triple compared
    lexicographically: the class (infinities, sign, zero), then exponent
    and mantissa, both negated for negative numbers. *)
Definition rank (a : float) : Z * Z * Z :=
  match a with
  | S754_nan => (0, 0, 0)
  | S754_zero _ => (0, 0, 0)
  | S754_infinity true => (-2, 0, 0)
  | S754_infinity false => (2, 0, 0)
  | S754_finite true m e => (-1, - e, - Zpos m)
  | S754_finite false m e => (1, e, Zpos m)
  end.

Definition lex_lt (x y : Z * Z * Z) : Prop :=
  let '(x1, x2, x3) := x in
  let '(y1, y2, y3) := y in
  x1 < y1 \/ (x1 = y1 /\ (x2 < y2 \/ (x2 = y2 /\ x3 < y3))).

End Float32.

(** ** runtime/components/tool_use/parser_common *)

Module ParserCommon.

(** [DefaultErrorListener] has the single member [status_]. *)
Record DefaultErrorListener := { status_ : bool }.

(** The constructor: [DefaultErrorListener() : status_(true) {}]. *)
Definition new_DefaultErrorListener : DefaultErrorListener :=
  {| status_ := true |}.

(** The four ANTLR callbacks.  None of them reads its arguments, which are
    ANTLR objects; only the positions and the message are kept here. *)
Definition syntaxError (l : DefaultErrorListener)
    (line charPositionInLine : Z) (msg : string) : DefaultErrorListener :=
  {| status_ := false |}.

Definition reportAmbiguity (l : DefaultErrorListener)
    (startIndex stopIndex : Z) (exact : bool) : DefaultErrorListener :=
  {| status_ := false |}.

Definition reportAttemptingFullContext (l : DefaultErrorListener)
    (startIndex stopIndex : Z) : DefaultErrorListener :=
  {| status_ := false |}.

Definition reportContextSensitivity (l : DefaultErrorListener)
    (startIndex stopIndex prediction : Z) : DefaultErrorListener :=
  {| status_ := false |}.

(** [bool status() const]. *)
Definition status (l : DefaultErrorListener) : bool := status_ l.

(** One invocation of a diagnostic callback, with its arguments. *)
Inductive Callback :=
| SyntaxError (line charPositionInLine : Z) (msg : string)
| ReportAmbiguity (startIndex stopIndex : Z) (exact : bool)
| ReportAttemptingFullContext (startIndex stopIndex : Z)
| ReportContextSensitivity (startIndex stopIndex prediction : Z).

Definition invoke (l : DefaultErrorListener) (c : Callback)
    : DefaultErrorListener :=
  match c with
  | SyntaxError ln col msg => syntaxError l ln col msg
  | ReportAmbiguity a b ex => reportAmbiguity l a b ex
  | ReportAttemptingFullContext a b => reportAttemptingFullContext l a b
  | ReportContextSensitivity a b p => reportContextSensitivity l a b p
  end.

(** The listener after a sequence of callbacks, oldest first. *)
Definition run (cs : list Callback) (l : DefaultErrorListener)
    : DefaultErrorListener :=
  fold_left invoke cs l.

(** [absl::string_view] accessors.  [front] and [back] are undefined on an
    empty view; [StripQuotes] only reaches them behind [size() < 2]. *)
Definition size (text : string) : nat := String.length text.

Definition front (text : string) : option ascii := String.get 0 text.

Definition back (text : string) : option ascii :=
  String.get (size text - 1) text.

Definition substr (pos n : nat) (text : string) : string :=
  String.substring pos n text.

Definition dquote : ascii := Ascii.ascii_of_nat 34.
Definition squote : ascii := Ascii.ascii_of_nat 39.

Definition ascii_neq (a b : ascii) : bool := negb (Ascii.eqb a b).

(** [absl::string_view StripQuotes(absl::string_view text)]. *)
Definition StripQuotes (text : string) : string :=
  if (size text <? 2)%nat then text
  else
    match front text, back text with
    | Some f, Some b =>
        if (ascii_neq f dquote && ascii_neq f squote) || ascii_neq b f
        then text
        else substr 1 (size text - 2) text
    | _, _ => text
    end.

End ParserCommon.

(** ** litert::TensorBuffer, as far as the sampler uses it *)

Module Tensor.
Import absl.

(** A tensor buffer of elements of type [A].

    - [TensorType] stands for [TensorType()] followed by
      [.Layout().Dimensions()]: the dimensions, or the status the
      [LITERT_ASSIGN_OR_RETURN] macro returns when the call fails;
    - [host_memory] tells whether [ReferTensorBufferAsSpan] succeeds;
    - [PackedSize] is the size in bytes, or the failure of the call;
    - [contents] are the elements held by the buffer. *)
Record TensorBuffer (A : Type) := {
  TensorType : StatusOr (list Z);
  host_memory : bool;
  PackedSize : StatusOr Z;
  contents : list A
}.
Arguments TensorType {A} _.
Arguments host_memory {A} _.
Arguments PackedSize {A} _.
Arguments contents {A} _.

(** [overwrite src dst]: [dst] with its first elements replaced by [src]. *)
Definition overwrite {A} (src dst : list A) : list A :=
  (src ++ skipn (List.length src) dst)%list.

(** Modelled from the spec: [TensorBuffer::Write] belongs to LiteRT and is
    not part of the sources; the spec says the sampler "writes the chosen
    token id per row into ids_out", so [Write] stores the given span at
    the start of the buffer.  The sampler discards its return value. *)
Definition Write {A} (t : TensorBuffer A) (span : list A) : TensorBuffer A :=
  {| TensorType := TensorType t;
     host_memory := host_memory t;
     PackedSize := PackedSize t;
     contents := overwrite span (contents t) |}.

(** Modelled from the spec: [TensorBuffer::Read] belongs to LiteRT and is
    not part of the sources; it is the "download" of the buffer's data
    into the given span, as many elements as the span holds.  The result
    is the span after the call. *)
Definition Read {A} (t : TensorBuffer A) (span : list A) : list A :=
  overwrite (firstn (List.length span) (contents t)) span.

Definition sizeof_float : Z := 4.

End Tensor.

(** ** runtime/components/top_p_cpu_sampler.cc *)

Module TopPCpuSampler.
Import absl Float32 Tensor.

(** Evaluation of C++ code that can run into undefined behaviour
    (an index out of range): [None] is "undefined". *)
Definition bind {A B} (x : option A) (f : A -> option B) : option B :=
  match x with Some a => f a | None => None end.

Local Notation "x <- e ;; k" := (bind e (fun x => k))
  (at level 61, e at next level, right associativity).

Section Sampler.

(** The pseudo-random engine held in [generator_], and its construction
    from the seed. *)
Variable Generator : Type.
Variable make_generator : Z -> Generator.

(** [absl::StrCat] on a [float] argument. *)
Variable float_to_string : float -> string.

(** [NumSignificantDims] of [runtime/util/tensor_buffer_util.h]. *)
Variable NumSignificantDims : forall A, TensorBuffer A -> Z.

(** [std::log] on [float]. *)
Variable logf : float -> float.

(** [TopKTopPSampling] of [runtime/components/sampling_cpu_util.h]:
    from the logits, [k], [p], the temperature, the generator and the
    batch size to the returned [StatusOr<std::vector<int>>], the
    [sampled_scores] output vector and the generator after the call. *)
Variable TopKTopPSampling :
  list float -> Z -> float -> float -> Generator -> Z ->
  StatusOr (list Z) * list float * Generator.

Record TopPSampler := {
  k_ : Z;
  p_ : float;
  temperature_ : float;
  batch_size_ : Z;
  generator_ : Generator;
  logits_data_ : list float
}.

(** [absl::Status ValidateTensor(tensor, max_num_dims, batch_size,
    tensor_name)]. *)
Definition ValidateTensor {A} (tensor : TensorBuffer A) (max_num_dims : Z)
    (batch_size : Z) (tensor_name : string) : option Status :=
  match TensorType tensor with
  | Failed c m => Some (Error c m)
  | Value dims =>
      if NumSignificantDims A tensor >? max_num_dims then
        Some (InvalidArgumentError
                ("The output " ++ tensor_name ++ " tensor must have <="
                 ++ StrCat_int max_num_dims
                 ++ " significant dimension, but got "
                 ++ StrCat_int (NumSignificantDims A tensor)))
      else
        dims0 <- nth_error dims 0 ;;
        if negb (dims0 =? batch_size) then
          Some (InvalidArgumentError
                  ("The output " ++ tensor_name
                   ++ " tensor must have the same batch size as the input "
                   ++ "logits tensor, but got "
                   ++ StrCat_int dims0 ++ " vs " ++ StrCat_int batch_size))
        else Some OkStatus
  end.

(** [TopPSampler::Create].  The private constructor only stores its
    arguments and seeds the generator. *)
Definition Create (k : Z) (p temperature : float) (batch_size seed : Z)
    : StatusOr TopPSampler :=
  if k <=? 0 then Failed kInvalidArgument "k must be positive."
  else if ltb p zero || ltb one p then
    Failed kInvalidArgument "p must be in [0, 1]."
  else if batch_size <=? 0 then
    Failed kInvalidArgument "batch_size must be positive."
  else if ltb temperature zero then
    Failed kInvalidArgument
      ("Temperature must be >= 0, but got " ++ float_to_string temperature)
  else
    Value {| k_ := k; p_ := p; temperature_ := temperature;
             batch_size_ := batch_size;
             generator_ := make_generator seed;
             logits_data_ := [] |}.

(** What a call of [SampleToIdAndScoreBuffer] leaves behind: the returned
    status, the sampler and the two output tensors. *)
Record Outcome := {
  result : Status;
  sampler_after : TopPSampler;
  ids_after : TensorBuffer Z;
  scores_after : option (TensorBuffer float)
}.

(** The logits as a span: the tensor's own memory when it is on the
    host, the downloaded copy in [logits_data_] otherwise.  Returns the
    span and the new [logits_data_]. *)
Definition logits_span (s : TopPSampler) (logits_tensor : TensorBuffer float)
    : StatusOr (list float * list float) :=
  if host_memory logits_tensor then
    Value (contents logits_tensor, logits_data_ s)
  else
    match PackedSize logits_tensor with
    | Failed c m => Failed c m
    | Value logits_size =>
        let n := logits_size / sizeof_float in
        let buffer :=
          if Z.of_nat (List.length (logits_data_ s)) =? n then logits_data_ s
          else repeat zero (Z.to_nat n) in
        let buffer' := Read logits_tensor buffer in
        Value (buffer', buffer')
    end.

(** The loop [scores[i] = std::log(sampled_scores[i])] for
    [i < batch_size_]. *)
Fixpoint log_scores (sampled_scores : list float) (rows : list nat)
    : option (list float) :=
  match rows with
  | [] => Some []
  | i :: rest =>
      x <- nth_error sampled_scores i ;;
      xs <- log_scores sampled_scores rest ;;
      Some (logf x :: xs)
  end.

Definition with_state (s : TopPSampler) (g : Generator)
    (cache : list float) : TopPSampler :=
  {| k_ := k_ s; p_ := p_ s; temperature_ := temperature_ s;
     batch_size_ := batch_size_ s;
     generator_ := g; logits_data_ := cache |}.

(** [TopPSampler::SampleToIdAndScoreBuffer]; [scores_tensor] is [None]
    for a null pointer. *)
Definition SampleToIdAndScoreBuffer (s : TopPSampler)
    (logits_tensor : TensorBuffer float) (ids_tensor : TensorBuffer Z)
    (scores_tensor : option (TensorBuffer float)) : option Outcome :=
  let leave st s' ids' scores' :=
    Some {| result := st; sampler_after := s';
            ids_after := ids'; scores_after := scores' |} in
  status <- ValidateTensor logits_tensor 2 (batch_size_ s) "input logits" ;;
  if negb (ok status) then leave status s ids_tensor scores_tensor else
  status <- ValidateTensor ids_tensor 1 (batch_size_ s) "output ids" ;;
  if negb (ok status) then leave status s ids_tensor scores_tensor else
  match logits_span s logits_tensor with
  | Failed c m => leave (Error c m) s ids_tensor scores_tensor
  | Value (logits_data, cache) =>
      let '(sampled_ids, sampled_scores, g) :=
        TopKTopPSampling logits_data (k_ s) (p_ s) (temperature_ s)
                         (generator_ s) (batch_size_ s) in
      let s' := with_state s g cache in
      match sampled_ids with
      | Failed c m => leave (Error c m) s' ids_tensor scores_tensor
      | Value ids =>
          let ids_tensor' := Write ids_tensor ids in
          match scores_tensor with
          | None => leave OkStatus s' ids_tensor' None
          | Some scores_t =>
              status <- ValidateTensor scores_t 1 (batch_size_ s)
                                       "output scores" ;;
              if negb (ok status) then
                leave status s' ids_tensor' (Some scores_t)
              else
                scores <- log_scores sampled_scores
                            (seq 0 (Z.to_nat (batch_size_ s))) ;;
                leave OkStatus s' ids_tensor'
                      (Some (Write scores_t scores))
          end
      end
  end.

End Sampler.

Arguments k_ {Generator} _.
Arguments p_ {Generator} _.
Arguments temperature_ {Generator} _.
Arguments batch_size_ {Generator} _.
Arguments generator_ {Generator} _.
Arguments logits_data_ {Generator} _.
Arguments result {Generator} _.
Arguments sampler_after {Generator} _.
Arguments ids_after {Generator} _.
Arguments scores_after {Generator} _.

End TopPCpuSampler.

(** ** runtime/components/sampling_cpu_util: TopKTopPSampling

    The sampler calls [TopKTopPSampling], whose source is not available.
    This module follows section 4.1 of the specification. *)

Module SamplingCpuUtil.
Import absl Float32.

Section Sampling.

Variable Generator : Type.

(** [std::exp] on [float]. *)
Variable expf : float -> float.

(** One draw of an index from the discrete distribution with the given
    weights, advancing the generator. *)
Variable draw : Generator -> list float -> nat * Generator.

(** A candidate: a token id with its logit, later its probability. *)
Definition Candidate : Type := Z * float.

Fixpoint number_from (i : Z) (row : list float) : list Candidate :=
  match row with
  | [] => []
  | x :: rest => (i, x) :: number_from (i + 1) rest
  end.

(** Insertion into a list in descending order of the value; among equal
    values the inserted (earlier) candidate comes first, which keeps
    the original order of ties. *)
Fixpoint insert_desc (c : Candidate) (l : list Candidate)
    : list Candidate :=
  match l with
  | [] => [c]
  | d :: l' => if ltb (snd c) (snd d) then d :: insert_desc c l'
               else c :: l
  end.

Definition sort_desc (l : list Candidate) : list Candidate :=
  fold_right insert_desc [] l.

(** "restrict to the top-k highest-logit candidates" *)
Definition top_k (k : Z) (row : list float) : list Candidate :=
  firstn (Z.to_nat k) (sort_desc (number_from 0 row)).

Definition map_value (f : float -> float) (cs : list Candidate)
    : list Candidate :=
  map (fun c => (fst c, f (snd c))) cs.

(** "apply temperature scaling (divide by temperature)" *)
Definition scale (temperature : float) (cs : list Candidate)
    : list Candidate :=
  map_value (fun x => div x temperature) cs.

Definition fsum (xs : list float) : float :=
  match xs with
  | [] => zero
  | x :: rest => fold_left add rest x
  end.

Definition normalize (cs : list Candidate) : list Candidate :=
  let total := fsum (map snd cs) in
  map_value (fun x => div x total) cs.

(** "compute a softmax over the scaled candidates": the exponentials of
    the values divided by their sum.  The exponentials are taken relative
    to the value of the first candidate, the largest one as the candidates
    are in descending order, which leaves the quotients as they are and
    keeps [exp] from overflowing: [top_p_cpu_sampler_test.cc] samples
    from logits equal to the largest [float] and expects the probability
    one. *)
Definition softmax (cs : list Candidate) : list Candidate :=
  let largest := match cs with [] => zero | c :: _ => snd c end in
  normalize (map_value (fun x => expf (sub x largest)) cs).

(** How many more candidates are needed after a prefix of cumulative
    probability [cum] for the cumulative probability to reach [p];
    all of them if it never does. *)
Fixpoint prefix_len (p cum : float) (rest : list float) : nat :=
  if leb p cum then O
  else match rest with
       | [] => O
       | q :: rest' => S (prefix_len p (add cum q) rest')
       end.

(** "restrict to the smallest prefix (in descending probability order)
    whose cumulative probability is >= p"; the prefix holds at least
    one candidate, since one is drawn from it. *)
Definition nucleus (p : float) (cs : list Candidate) : list Candidate :=
  match cs with
  | [] => []
  | c :: rest => c :: firstn (prefix_len p (snd c) (map snd rest)) rest
  end.

(** The final distribution of a row: top-k, temperature scaling, softmax,
    nucleus truncation, renormalization. *)
Definition final_distribution (k : Z) (p temperature : float)
    (row : list float) : list Candidate :=
  normalize (nucleus p (softmax (scale temperature (top_k k row)))).

(** One row: the chosen id, its final probability and the generator
    after the draw; [None] when there is no candidate to choose.
    "temperature==0 is treated as deterministic argmax -- skip
    probabilistic sampling entirely and pick the single highest-logit
    candidate", which is then the only candidate and has probability
    one. *)
Definition sample_row (k : Z) (p temperature : float) (g : Generator)
    (row : list float) : option (Z * float) * Generator :=
  match top_k k row with
  | [] => (None, g)
  | best :: _ =>
      if eqb temperature zero then (Some (fst best, one), g)
      else
        let dist := final_distribution k p temperature row in
        let '(i, g') := draw g (map snd dist) in
        (option_map (fun c => (fst c, snd c)) (nth_error dist i), g')
  end.

(** The rows of a row-major [n] x [vocab] buffer. *)
Fixpoint rows_of (vocab n : nat) (logits : list float)
    : list (list float) :=
  match n with
  | O => []
  | S n' => firstn vocab logits :: rows_of vocab n' (skipn vocab logits)
  end.

(** The rows in order, threading the generator; stops at the first row
    without a choice. *)
Fixpoint sample_rows (k : Z) (p temperature : float) (g : Generator)
    (rows : list (list float))
    : option (list Z * list float) * Generator :=
  match rows with
  | [] => (Some ([], []), g)
  | row :: rest =>
      match sample_row k p temperature g row with
      | (None, g') => (None, g')
      | (Some (id, score), g') =>
          match sample_rows k p temperature g' rest with
          | (None, g'') => (None, g'')
          | (Some (ids, scores), g'') =>
              (Some (id :: ids, score :: scores), g'')
          end
      end
  end.

Definition vocab_size (logits : list float) (batch_size : Z) : nat :=
  Z.to_nat (Z.of_nat (List.length logits) / batch_size).

(** Modelled from the spec: [TopKTopPSampling] of
    [runtime/components/sampling_cpu_util] is missing from the sources.
    Per batch row, independently: top-k restriction, temperature
    scaling, softmax, nucleus truncation, renormalization and one draw;
    the ids are returned, the final probabilities of the chosen
    candidates are left in [sampled_scores].  The spec names no failure;
    the only input the procedure cannot handle, a row without
    candidates, is reported as an error. *)
Definition TopKTopPSampling (logits : list float) (k : Z)
    (p temperature : float) (g : Generator) (batch_size : Z)
    : StatusOr (list Z) * list float * Generator :=
  let rows := rows_of (vocab_size logits batch_size)
                      (Z.to_nat batch_size) logits in
  match sample_rows k p temperature g rows with
  | (Some (ids, scores), g') => (Value ids, scores, g')
  | (None, g') =>
      (Failed kInvalidArgument "No candidate to sample from.", [], g')
  end.

(** The first maximal element of a row whose ids start at [i], the "single
    highest-logit candidate": the best of the rest of the row, unless the
    first element is at least as large. *)
Fixpoint argmax_from (i : Z) (row : list float) : option Candidate :=
  match row with
  | [] => None
  | x :: rest =>
      match argmax_from (i + 1) rest with
      | Some best => if ltb x (snd best) then Some best else Some (i, x)
      | None => Some (i, x)
      end
  end.

Definition argmax (row : list float) : option Z :=
  option_map fst (argmax_from 0 row).

(** Row [r] of a row-major buffer with rows of length [vocab]. *)
Definition row_at (vocab r : nat) (logits : list float) : list float :=
  firstn vocab (skipn (r * vocab) logits).

End Sampling.

End SamplingCpuUtil.

(** ** runtime/conversation/conversation.h: the history and its lock

    [history_] is guarded by [history_mutex_].  [GetHistory] and
    [AccessHistory] are in the header; the turn itself ([SendMessage],
    [SendMessageAsync], [CancelProcess]) is implemented elsewhere and is
    modelled from section 4.3 of the specification.  The conversation is a
    transition system in which the turn and any number of observer threads
    interleave; a step is what one thread does without interruption. *)

Module Conversation.
Import absl.

Section History.

(** [Message] of [runtime/conversation/io_types.h]. *)
Variable Message : Type.

(** Who holds [history_mutex_]. *)
Inductive Holder :=
| Turn
| Observer (thread : nat).

(** The phase of the orchestrator.  [Committing] is the end-of-turn
    commit, entered with the lock held, with the messages still to be
    appended. *)
Inductive Phase :=
| Idle
| Generating (input : Message) (text : string)
| Committing (pending : list Message).

Record State := {
  history_ : list Message;
  history_mutex_ : option Holder;
  phase : Phase;
  cancel_requested : bool
}.

Definition initial (history : list Message) : State :=
  {| history_ := history; history_mutex_ := None;
     phase := Idle; cancel_requested := false |}.

Inductive Event :=
| SendMessage (input : Message)
| Rejected (input : Message)
| Fragment (text : string)
| CancelProcess
| Aborted (code : StatusCode)
| CommitBegin (response : Message)
| Append (m : Message)
| CommitEnd
| Lock (thread : nat)
| Observe (thread : nat) (seen : list Message)
| Unlock (thread : nat).

Definition set_phase (s : State) (ph : Phase) : State :=
  {| history_ := history_ s; history_mutex_ := history_mutex_ s;
     phase := ph; cancel_requested := cancel_requested s |}.

Definition set_mutex (s : State) (h : option Holder) : State :=
  {| history_ := history_ s; history_mutex_ := h;
     phase := phase s; cancel_requested := cancel_requested s |}.

Inductive step : State -> Event -> State -> Prop :=
(** Modelled from the spec: a turn starts from Idle ... *)
| step_send s input :
    phase s = Idle ->
    step s (SendMessage input)
         {| history_ := history_ s; history_mutex_ := history_mutex_ s;
            phase := Generating input EmptyString; cancel_requested := false |}
(** ... and a turn invoked while one is active fails with
    FailedPrecondition. *)
| step_rejected s input :
    phase s <> Idle ->
    step s (Rejected input) s
(** One decode step accumulates a text fragment. *)
| step_fragment s input text frag :
    phase s = Generating input text ->
    step s (Fragment frag) (set_phase s (Generating input (text ++ frag)))
(** [CancelProcess] raises the cooperative signal. *)
| step_cancel s :
    step s CancelProcess
         {| history_ := history_ s; history_mutex_ := history_mutex_ s;
            phase := phase s; cancel_requested := true |}
(** A failure of rendering, processing or the engine, or a cancellation
    seen between two decode steps, ends the turn. *)
| step_aborted s input text code :
    phase s = Generating input text ->
    (code = kCancelled -> cancel_requested s = true) ->
    step s (Aborted code) (set_phase s Idle)
(** On a successful stop the turn takes the history lock to append the
    rendered input message and the final response. *)
| step_commit_begin s input text response :
    phase s = Generating input text ->
    history_mutex_ s = None ->
    step s (CommitBegin response)
         {| history_ := history_ s; history_mutex_ := Some Turn;
            phase := Committing [input; response];
            cancel_requested := cancel_requested s |}
| step_append s m pending :
    phase s = Committing (m :: pending) ->
    step s (Append m)
         {| history_ := (history_ s ++ [m])%list;
            history_mutex_ := history_mutex_ s;
            phase := Committing pending;
            cancel_requested := cancel_requested s |}
| step_commit_end s :
    phase s = Committing [] ->
    step s CommitEnd
         {| history_ := history_ s; history_mutex_ := None;
            phase := Idle; cancel_requested := cancel_requested s |}
(** [GetHistory] and [AccessHistory], from the header: take the lock,
    copy [history_] or show it to the visitor, release the lock. *)
| step_lock s thread :
    history_mutex_ s = None ->
    step s (Lock thread) (set_mutex s (Some (Observer thread)))
| step_observe s thread :
    history_mutex_ s = Some (Observer thread) ->
    step s (Observe thread (history_ s)) s
| step_unlock s thread :
    history_mutex_ s = Some (Observer thread) ->
    step s (Unlock thread) (set_mutex s None).

(** Executions, with their events oldest first. *)
Inductive exec : State -> list Event -> State -> Prop :=
| exec_nil s : exec s [] s
| exec_cons s e s1 evs s' :
    step s e s1 -> exec s1 evs s' -> exec s (e :: evs) s'.

(** The turns committed by a sequence of events: each [CommitBegin]
    contributes the input of the turn it ends and its response. *)
Definition commit_event (acc : option Message * list Message) (e : Event)
    : option Message * list Message :=
  match e with
  | SendMessage input => (Some input, snd acc)
  | CommitBegin response =>
      match fst acc with
      | Some input => (None, (snd acc ++ [input; response])%list)
      | None => acc
      end
  | Aborted _ => (None, snd acc)
  | _ => acc
  end.

Definition committed (evs : list Event) : list Message :=
  snd (fold_left commit_event evs (None, [])).

Definition is_commit (e : Event) : bool :=
  match e with
  | CommitBegin _ | Append _ | CommitEnd => true
  | _ => false
  end.

Definition in_commit (s : State) : bool :=
  match phase s with Committing _ => true | _ => false end.

(** A history made of [base] followed by whole turns. *)
Definition whole_turns (base h : list Message) : Prop :=
  exists turns : list (Message * Message),
    h = (base ++ flat_map (fun t => [fst t; snd t]) turns)%list.

(** What the events so far say about the state: outside a commit the
    history is the initial one followed by the committed turns; inside a
    commit the lock is held by the turn and the pending messages complete
    the history. *)
Definition history_inv (base : list Message)
    (acc : option Message * list Message) (s : State) : Prop :=
  match phase s with
  | Idle =>
      history_ s = (base ++ snd acc)%list /\ history_mutex_ s <> Some Turn
  | Generating input _ =>
      history_ s = (base ++ snd acc)%list /\ history_mutex_ s <> Some Turn /\
      fst acc = Some input
  | Committing pending =>
      (history_ s ++ pending)%list = (base ++ snd acc)%list /\
      history_mutex_ s = Some Turn
  end.

End History.

Arguments Idle {Message}.
Arguments Generating {Message} input text.
Arguments Committing {Message} pending.
Arguments history_ {Message} _.
Arguments history_mutex_ {Message} _.
Arguments phase {Message} _.
Arguments cancel_requested {Message} _.
Arguments SendMessage {Message} input.
Arguments Rejected {Message} input.
Arguments Fragment {Message} text.
Arguments CancelProcess {Message}.
Arguments Aborted {Message} code.
Arguments CommitBegin {Message} response.
Arguments Append {Message} m.
Arguments CommitEnd {Message}.
Arguments Lock {Message} thread.
Arguments Observe {Message} thread seen.
Arguments Unlock {Message} thread.
Arguments initial {Message} history.
Arguments step {Message} _ _ _.
Arguments exec {Message} _ _ _.
Arguments committed {Message} evs.
Arguments is_commit {Message} e.
Arguments in_commit {Message} s.
Arguments whole_turns {Message} base h.
Arguments history_inv {Message} base acc s.

End Conversation.

(** ** JSON values

    The tree shared by Gson ([JsonObject], [JsonArray]) and nlohmann::json.
    The members of an object are kept sorted by key without duplicates, as
    nlohmann::json's [std::map] keeps them; Gson compares objects as sets
    of members, so the sorted list stands for both. *)

Module Json.

Inductive Json :=
| JNull
| JBool (b : bool)
| JNumber (z : Z)
| JString (s : string)
| JArray (items : list Json)
| JObject (members : list (string * Json)).

(** Evaluation that may end in an exception. *)
Inductive Result (A : Type) :=
| Returned (a : A)
| Thrown (exception message : string).
Arguments Returned {A} a.
Arguments Thrown {A} exception message.

(** Insertion of a member, replacing the member with the same key. *)
Fixpoint put (key : string) (value : Json) (members : list (string * Json))
    : list (string * Json) :=
  match members with
  | [] => [(key, value)]
  | (k, v) :: rest =>
      match String.compare key k with
      | Lt => (key, value) :: members
      | Eq => (key, value) :: rest
      | Gt => (k, v) :: put key value rest
      end
  end.

Fixpoint get (key : string) (members : list (string * Json)) : option Json :=
  match members with
  | [] => None
  | (k, v) :: rest => if String.eqb key k then Some v else get key rest
  end.

(** [j.contains(key)] together with [j[key]]: the member of an object;
    nothing for a missing key or a value that is not an object. *)
Definition member (key : string) (j : Json) : option Json :=
  match j with
  | JObject members => get key members
  | _ => None
  end.

Definition is_array (j : Json) : bool :=
  match j with JArray _ => true | _ => false end.

Definition is_string (j : Json) : bool :=
  match j with JString _ => true | _ => false end.

(** One content part of the wire shape:
    [{"type":"text","text":string}],
    [{"type":"image","blob":base64 | "path":string}] or
    [{"type":"audio","blob":base64 | "path":string}]. *)
Definition is_content_part (j : Json) : bool :=
  match member "type" j with
  | Some (JString ty) =>
      if String.eqb ty "text" then
        match member "text" j with Some (JString _) => true | _ => false end
      else if String.eqb ty "image" || String.eqb ty "audio" then
        match member "blob" j, member "path" j with
        | Some (JString _), _ => true
        | _, Some (JString _) => true
        | _, _ => false
        end
      else false
  | _ => false
  end.

(** The message wire shape of section 6:
    [{"role": string, "content": string | [part, ...]}]. *)
Definition is_wire_message (j : Json) : bool :=
  match member "role" j, member "content" j with
  | Some (JString _), Some (JString _) => true
  | Some (JString _), Some (JArray parts) => forallb is_content_part parts
  | _, _ => false
  end.

End Json.

(** ** The Kotlin classes [Message] and [Content] *)

Module Kotlin.
Import Json.

Section Classes.

(** [kotlin.io.encoding.Base64.encode] and its inverse. *)
Variable Base64_encode : list Byte.byte -> string.
Variable Base64_decode : string -> option (list Byte.byte).

Inductive Content :=
| Text (text : string)
| ImageBytes (bytes : list Byte.byte)
| ImageFile (absolutePath : string)
| AudioBytes (bytes : list Byte.byte)
| AudioFile (absolutePath : string).

(** [class Message private constructor(val contents: List<Content>)]. *)
Record Message := { contents : list Content }.

(** [JsonObject.addProperty(key, value)] with a string value. *)
Definition addProperty (key value : string) (o : list (string * Json))
    : list (string * Json) :=
  put key (JString value) o.

(** [Content.toJson()], one override per subclass. *)
Definition Content_toJson (c : Content) : Json :=
  match c with
  | Text text =>
      JObject (addProperty "text" text (addProperty "type" "text" []))
  | ImageBytes bytes =>
      JObject (addProperty "blob" (Base64_encode bytes)
                 (addProperty "type" "image" []))
  | ImageFile absolutePath =>
      JObject (addProperty "path" absolutePath
                 (addProperty "type" "image" []))
  | AudioBytes bytes =>
      JObject (addProperty "blob" (Base64_encode bytes)
                 (addProperty "type" "audio" []))
  | AudioFile absolutePath =>
      JObject (addProperty "path" absolutePath
                 (addProperty "type" "audio" []))
  end.

(** [Message.toJson()]: a [JsonArray] with one element per content. *)
Definition Message_toJson (m : Message) : Json :=
  JArray (map Content_toJson (contents m)).

(** [fun init()]: an ordinary member function holding
    [check(contents.isNotEmpty()) { "Contents should not be empty." }];
    [check] throws [IllegalStateException] when its argument is false. *)
Definition Message_init (m : Message) : Result unit :=
  match contents m with
  | [] => Thrown "IllegalStateException" "Contents should not be empty."
  | _ :: _ => Returned tt
  end.

(** The three [Message.of] overloads of the companion object.  Each calls
    the private constructor, which stores the list. *)
Definition Message_of_text (text : string) : Result Message :=
  Returned {| contents := [Text text] |}.

Definition Message_of_content (content : Content) : Result Message :=
  Returned {| contents := [content] |}.

Definition Message_of_contents (cs : list Content) : Result Message :=
  Returned {| contents := cs |}.

(** Modelled from the spec: the sources hold no reader of the wire shape
    for [Content]; this one reads a content part of section 6 back into
    the variant it describes. *)
Definition Content_fromJson (j : Json) : option Content :=
  match member "type" j with
  | Some (JString ty) =>
      if String.eqb ty "text" then
        match member "text" j with
        | Some (JString text) => Some (Text text)
        | _ => None
        end
      else if String.eqb ty "image" then
        match member "blob" j, member "path" j with
        | Some (JString blob), _ => option_map ImageBytes (Base64_decode blob)
        | _, Some (JString path) => Some (ImageFile path)
        | _, _ => None
        end
      else if String.eqb ty "audio" then
        match member "blob" j, member "path" j with
        | Some (JString blob), _ => option_map AudioBytes (Base64_decode blob)
        | _, Some (JString path) => Some (AudioFile path)
        | _, _ => None
        end
      else None
  | _ => None
  end.

Fixpoint Contents_fromJson (parts : list Json) : option (list Content) :=
  match parts with
  | [] => Some []
  | j :: rest =>
      match Content_fromJson j, Contents_fromJson rest with
      | Some c, Some cs => Some (c :: cs)
      | _, _ => None
      end
  end.

(** Modelled from the spec: the reader of a serialized content sequence. *)
Definition Message_fromJson (j : Json) : option Message :=
  match j with
  | JArray parts =>
      option_map (fun cs => {| contents := cs |}) (Contents_fromJson parts)
  | _ => None
  end.

End Classes.

End Kotlin.

(** ** literlm_openai_api/main.cc: ConvertToLiteRtJsonMessage *)

Module OpenAiApi.
Import absl Json.

(** The loop over the parts of an array content.  [std::string type =
    item["type"]] throws [type_error] when the member is not a string. *)
Fixpoint convert_parts (content : list Json) (content_parts : list Json)
    : Result (list Json) :=
  match content with
  | [] => Returned content_parts
  | item :: rest =>
      match member "type" item with
      | None => convert_parts rest content_parts
      | Some (JString type) =>
          let push part := convert_parts rest (content_parts ++ [part])%list in
          let part_of kind field value :=
            JObject (put field value (put "type" (JString kind) [])) in
          match (if String.eqb type "text" then member "text" item
                 else None) with
          | Some text => push (part_of "text" "text" text)
          | None =>
              match (if String.eqb type "image" then member "blob" item
                     else None) with
              | Some blob => push (part_of "image" "blob" blob)
              | None =>
                  match (if String.eqb type "audio" then member "blob" item
                         else None) with
                  | Some blob => push (part_of "audio" "blob" blob)
                  | None => convert_parts rest content_parts
                  end
              end
          end
      | Some _ =>
          Thrown "json.exception.type_error.302" "type must be string"
      end
  end.

(** [absl::StatusOr<lm::JsonMessage> ConvertToLiteRtJsonMessage(const
    nlohmann::json& messages)]. *)
Definition ConvertToLiteRtJsonMessage (messages : Json)
    : Result (StatusOr Json) :=
  match messages with
  | JArray (first :: others) =>
      let last_message := last others first in
      match member "role" last_message, member "content" last_message with
      | Some role, Some content =>
          let output_message := put "role" role [] in
          match content with
          | JString s =>
              Returned (Value (JObject (put "content" (JString s)
                                          output_message)))
          | JArray items =>
              match convert_parts items [] with
              | Returned content_parts =>
                  Returned (Value (JObject (put "content" (JArray content_parts)
                                              output_message)))
              | Thrown e m => Thrown e m
              end
          | _ =>
              Returned (Failed kInvalidArgument
                          "'content' must be a string or an array.")
          end
      | _, _ =>
          Returned (Failed kInvalidArgument
                      "Last message must have 'role' and 'content'.")
      end
  | _ =>
      Returned (Failed kInvalidArgument
                  "'messages' must be a non-empty array.")
  end.

End OpenAiApi.

(** ** Predicates used in the statements *)

Module Props.
Import Float32 ParserCommon.

(** [text] has length at least 2 and its first and last characters are the
    same quote character. *)
Definition quoted (text : string) : Prop :=
  (2 <= String.length text)%nat /\
  exists q : ascii,
    String.get 0 text = Some q /\
    String.get (String.length text - 1) text = Some q /\
    (q = squote \/ q = dquote).

Definition is_nil {A} (l : list A) : bool :=
  match l with [] => true | _ :: _ => false end.

Definition no_nan (row : list float) : Prop :=
  Forall (fun x => is_nan x = false) row.

(** *** The sampling of one row, in the words of section 4.1

    A second description of what [TopKTopPSampling] does with a row, step
    by step as the specification words it, against which the procedure
    of [SamplingCpuUtil] is checked. *)




(** The sum of a list of floats, from left to right. *)
Definition total (xs : list float) : float :=
  match xs with
  | [] => zero
  | x :: rest => fold_left add rest x
  end.





(** [id] is the position of the first maximal element of [row]: no element
    of the row exceeds it, and every earlier element is strictly below. *)
Definition first_maximum (row : list float) (id : Z) : Prop :=
  0 <= id < Z.of_nat (List.length row) /\
  exists v,
    nth_error row (Z.to_nat id) = Some v /\
    (forall j w, nth_error row j = Some w -> ltb v w = false) /\
    (forall j w, (j < Z.to_nat id)%nat -> nth_error row j = Some w ->
                 ltb w v = true).

End Props.

(** ** A concrete instance of the parameters

    Stand-ins for the library functions the sampler is parameterized by,
    on which the definitions can be run. *)

Module Instance.
Import absl Float32 Tensor.

Definition Generator : Type := Z.

Definition make_generator (seed : Z) : Generator := seed.

(** Prints the class of the float only. *)
Definition float_to_string (x : float) : string :=
  match x with
  | S754_zero _ => "0"
  | S754_infinity false => "inf"
  | S754_infinity true => "-inf"
  | S754_nan => "nan"
  | S754_finite false _ _ => "positive"
  | S754_finite true _ _ => "negative"
  end.

(** The number of dimensions larger than one. *)
Definition NumSignificantDims (A : Type) (t : TensorBuffer A) : Z :=
  match TensorType t with
  | Value dims => Z.of_nat (List.length (filter (fun d => 1 <? d) dims))
  | Failed _ _ => 0
  end.

(** Crude stand-ins for [std::log] and [std::exp], exact at [log 1 = 0]
    and [exp 0 = 1]. *)
Definition logf (x : float) : float := if eqb x one then zero else nan.
Definition expf (x : float) : float :=
  if eqb x zero then one
  else if ltb x zero then S754_finite false 8388608 (-24)
  else if ltb zero x then S754_finite false 8388608 (-22)
  else nan.

(** Always draws the first index. *)
Definition draw (g : Generator) (weights : list float) : nat * Generator :=
  (0%nat, g + 1).

(** [0.5f] and [-1.0f]. *)
Definition half : float := S754_finite false 8388608 (-24).
Definition minus_one : float := S754_finite true 8388608 (-23).

Definition tensor {A} (dims : list Z) (data : list A) : TensorBuffer A :=
  {| TensorType := Value dims; host_memory := true;
     PackedSize := Value (4 * Z.of_nat (List.length data));
     contents := data |}.

(** Stand-ins for the Base64 codec: the bytes spelled out as characters. *)
Definition Base64_encode (bytes : list Byte.byte) : string :=
  string_of_list_byte bytes.
Definition Base64_decode (s : string) : option (list Byte.byte) :=
  Some (list_byte_of_string s).

(** The sampler and the tensors of the unit tests: [k = 1], [p = 0.5],
    [temperature = 1.0], [batch_size = 2], [seed = 1]. *)
Definition TopKTopPSampling :=
  SamplingCpuUtil.TopKTopPSampling Generator expf draw.

Definition sampler : TopPCpuSampler.TopPSampler Generator :=
  {| TopPCpuSampler.k_ := 1; TopPCpuSampler.p_ := half;
     TopPCpuSampler.temperature_ := one; TopPCpuSampler.batch_size_ := 2;
     TopPCpuSampler.generator_ := make_generator 1;
     TopPCpuSampler.logits_data_ := [] |}.

Definition logits : list float := map of_Z [0; 0; 10; 0; 11; 12; 1; 2].

Definition SampleToIdAndScoreBuffer :=
  TopPCpuSampler.SampleToIdAndScoreBuffer Generator NumSignificantDims logf
    TopKTopPSampling.

End Instance.

(** ** literlm_openai_api/main.cc, second version of the server

    The later version of the server reads images and audio from data URLs,
    derives the served model name from the model path and collects the
    reply of a blocking request from the streamed chunks. *)

Module OpenAiServer.
Import absl Json.

(** [std::string::find(char)]: the first position of the character. *)
Fixpoint find (c : ascii) (s : string) : option nat :=
  match s with
  | EmptyString => None
  | String a rest =>
      if Ascii.eqb a c then Some O else option_map S (find c rest)
  end.

(** [std::string::substr(pos)] for [pos <= size()]: the rest of the string
    from [pos]. *)
Definition substr (pos : nat) (s : string) : string :=
  String.substring pos (String.length s - pos) s.

(** [std::string::find_last_of(chars)]: the last position holding one of
    the characters. *)
Fixpoint find_last_of (chars : list ascii) (s : string) : option nat :=
  match s with
  | EmptyString => None
  | String a rest =>
      match find_last_of chars rest with
      | Some i => Some (S i)
      | None => if existsb (Ascii.eqb a) chars then Some O else None
      end
  end.

Definition comma : ascii := Ascii.ascii_of_nat 44.
Definition slash : ascii := Ascii.ascii_of_nat 47.
Definition backslash : ascii := Ascii.ascii_of_nat 92.

(** The part pushed for a data URL found under [item[key]["url"]]: the
    text after the first comma as the blob; nothing without a ["url"]
    member or without a comma; [type_error] when the url is not a string. *)
Definition data_url_part (kind : string) (url_obj : Json)
    : Result (option Json) :=
  match member "url" url_obj with
  | None => Returned None
  | Some (JString url_data) =>
      match find comma url_data with
      | Some comma_pos =>
          let base64_data := substr (comma_pos + 1) url_data in
          Returned (Some (JObject (put "blob" (JString base64_data)
                                     (put "type" (JString kind) []))))
      | None => Returned None
      end
  | Some _ => Thrown "json.exception.type_error.302" "type must be string"
  end.

(** The loop over the parts of an array content. *)
Fixpoint convert_parts (content : list Json) (content_parts : list Json)
    : Result (list Json) :=
  match content with
  | [] => Returned content_parts
  | item :: rest =>
      match member "type" item with
      | None => convert_parts rest content_parts
      | Some (JString type) =>
          let push_if part :=
            match part with
            | Returned (Some p) =>
                convert_parts rest (content_parts ++ [p])%list
            | Returned None => convert_parts rest content_parts
            | Thrown e m => Thrown e m
            end in
          match (if String.eqb type "text" then member "text" item
                 else None) with
          | Some text =>
              push_if (Returned (Some (JObject (put "text" text
                                          (put "type" (JString "text") [])))))
          | None =>
              match (if String.eqb type "image"
                     then member "image_url" item else None) with
              | Some image_url_obj =>
                  push_if (data_url_part "image" image_url_obj)
              | None =>
                  match (if String.eqb type "audio_url"
                         then member "audio_url" item else None) with
                  | Some audio_url_obj =>
                      push_if (data_url_part "audio" audio_url_obj)
                  | None => convert_parts rest content_parts
                  end
              end
          end
      | Some _ =>
          Thrown "json.exception.type_error.302" "type must be string"
      end
  end.

(** [ConvertToLiteRtJsonMessage] of the second version. *)
Definition ConvertToLiteRtJsonMessage (messages : Json)
    : Result (StatusOr Json) :=
  match messages with
  | JArray (first :: others) =>
      let last_message := last others first in
      match member "role" last_message, member "content" last_message with
      | Some role, Some content =>
          let output_message := put "role" role [] in
          match content with
          | JString s =>
              Returned (Value (JObject (put "content" (JString s)
                                          output_message)))
          | JArray items =>
              match convert_parts items [] with
              | Returned content_parts =>
                  Returned (Value (JObject (put "content" (JArray content_parts)
                                              output_message)))
              | Thrown e m => Thrown e m
              end
          | _ =>
              Returned (Failed kInvalidArgument
                          "'content' must be a string or an array.")
          end
      | _, _ =>
          Returned (Failed kInvalidArgument
                      "Last message must have 'role' and 'content'.")
      end
  | _ =>
      Returned (Failed kInvalidArgument
                  "'messages' must be a non-empty array.")
  end.

(** The served model name, as [main] determines it from the [model_name]
    flag and the model path. *)
Definition model_name (model_name_flag model_path : string) : string :=
  if (String.length model_name_flag =? 0)%nat then
    match find_last_of [slash; backslash] model_path with
    | Some last_slash_idx => substr (last_slash_idx + 1) model_path
    | None => model_path
    end
  else model_name_flag.

(** The variables the callback of [HandleBlockingRequest] captures. *)
Record BlockingState := {
  full_reply_content : string;
  stream_finished : bool;
  error_status : Status
}.

Definition blocking_start : BlockingState :=
  {| full_reply_content := EmptyString; stream_finished := false;
     error_status := OkStatus |}.

Definition is_null (j : Json) : bool :=
  match j with JNull => true | _ => false end.

(** [json_message["content"][0]] behind the tests [is_array()] and
    [!empty()]. *)
Definition first_content_part (json_message : Json) : option Json :=
  match member "content" json_message with
  | Some (JArray (part :: _)) => Some part
  | _ => None
  end.

(** One invocation of the callback of [HandleBlockingRequest] with a
    message or an error status; [get<std::string>()] throws when the text
    is not a string. *)
Definition blocking_callback (st : BlockingState)
    (message_or : StatusOr Json) : Result BlockingState :=
  match message_or with
  | Value json_message =>
      if is_null json_message then
        Returned {| full_reply_content := full_reply_content st;
                    stream_finished := true;
                    error_status := error_status st |}
      else
        match first_content_part json_message with
        | Some part =>
            match member "text" part with
            | Some (JString text) =>
                Returned {| full_reply_content :=
                              full_reply_content st ++ text;
                            stream_finished := stream_finished st;
                            error_status := error_status st |}
            | Some _ =>
                Thrown "json.exception.type_error.302" "type must be string"
            | None => Returned st
            end
        | None => Returned st
        end
  | Failed code message =>
      Returned {| full_reply_content := full_reply_content st;
                  stream_finished := true;
                  error_status := Error code message |}
  end.

(** The callback over the deliveries of one generation, oldest first. *)
Fixpoint blocking_deliver (st : BlockingState)
    (deliveries : list (StatusOr Json)) : Result BlockingState :=
  match deliveries with
  | [] => Returned st
  | d :: rest =>
      match blocking_callback st d with
      | Returned st' => blocking_deliver st' rest
      | Thrown e m => Thrown e m
      end
  end.

End OpenAiServer.

(** ** Further predicates used in the statements *)

Module MoreProps.
Import Json Kotlin.

(** The last element of a non-empty array of messages. *)
Definition last_message (messages : Json) : option Json :=
  match messages with
  | JArray (first :: others) => Some (last others first)
  | _ => None
  end.

(** A part as [ConvertToLiteRtJsonMessage] emits it: an object with the
    two members ["type"] and either ["text"] (type text) or ["blob"]
    (type image or audio). *)
Definition converted_part (j : Json) : bool :=
  match j with
  | JObject [(field, _); (ty, JString kind)] =>
      String.eqb ty "type" &&
      ((String.eqb field "text" && String.eqb kind "text") ||
       (String.eqb field "blob" &&
        (String.eqb kind "image" || String.eqb kind "audio")))
  | _ => false
  end.

(** A content held inline (text or bytes), as opposed to a file path. *)
Definition inline_content (c : Content) : bool :=
  match c with
  | ImageFile _ | AudioFile _ => false
  | _ => true
  end.

(** A text chunk as the engine streams it:
    [{"role": role, "content": [{"type": "text", "text": text}]}]. *)
Definition text_chunk (role text : string) : Json :=
  JObject [("content",
            JArray [JObject [("text", JString text);
                             ("type", JString "text")]]);
           ("role", JString role)].

(** No character of [s] is one of [chars]. *)
Fixpoint free_of (chars : list ascii) (s : string) : bool :=
  match s with
  | EmptyString => true
  | String a rest => negb (existsb (Ascii.eqb a) chars) && free_of chars rest
  end.

(** What one item of an array content contributes to the converted
    parts in the first version of the server: a part, nothing, or the
    exception of a ["type"] that is not a string. *)
Definition converted_item (item : Json) : Result (option Json) :=
  let part_of kind field value :=
    JObject (put field value (put "type" (JString kind) [])) in
  match member "type" item with
  | None => Returned None
  | Some (JString type) =>
      if String.eqb type "text" then
        Returned (option_map (part_of "text" "text") (member "text" item))
      else if String.eqb type "image" then
        Returned (option_map (part_of "image" "blob") (member "blob" item))
      else if String.eqb type "audio" then
        Returned (option_map (part_of "audio" "blob") (member "blob" item))
      else Returned None
  | Some _ => Thrown "json.exception.type_error.302" "type must be string"
  end.

Fixpoint converted_items (items : list Json) : Result (list Json) :=
  match items with
  | [] => Returned []
  | item :: rest =>
      match converted_item item with
      | Thrown e m => Thrown e m
      | Returned part =>
          match converted_items rest with
          | Thrown e m => Thrown e m
          | Returned parts =>
              Returned (match part with
                        | Some p => p :: parts
                        | None => parts
                        end)
          end
      end
  end.

(** The wire message with the given role and the serialized contents. *)
Definition wire_message (Base64_encode : list Byte.byte -> string)
    (role : string) (cs : list Content) : Json :=
  JObject [("content", Message_toJson Base64_encode {| contents := cs |});
           ("role", JString role)].

End MoreProps.

(** ** More concrete instances *)

Module MoreInstance.
Import absl Float32 Tensor.

(** A tensor whose [TensorType()] fails. *)
Definition untyped {A} (data : list A) : TensorBuffer A :=
  {| TensorType := Failed kInternal "no tensor type"; host_memory := true;
     PackedSize := Value (4 * Z.of_nat (List.length data));
     contents := data |}.

(** A tensor outside host memory. *)
Definition device {A} (dims : list Z) (data : list A) : TensorBuffer A :=
  {| TensorType := Value dims; host_memory := false;
     PackedSize := Value (4 * Z.of_nat (List.length data));
     contents := data |}.

(** A tensor outside host memory whose [PackedSize()] fails. *)
Definition unsized {A} (dims : list Z) (data : list A) : TensorBuffer A :=
  {| TensorType := Value dims; host_memory := false;
     PackedSize := Failed kInternal "no packed size";
     contents := data |}.



(** A sampler of the same configuration as [Instance.sampler] that has
    been used before: its generator is in another state, and
    [logits_data_] still holds the logits downloaded by an earlier
    call. *)
Definition reused_sampler : TopPCpuSampler.TopPSampler Instance.Generator :=
  {| TopPCpuSampler.k_ := 1; TopPCpuSampler.p_ := Instance.half;
     TopPCpuSampler.temperature_ := one; TopPCpuSampler.batch_size_ := 2;
     TopPCpuSampler.generator_ := 42;
     TopPCpuSampler.logits_data_ := map of_Z [0; 0; 0; 7; 0; 0; 0; 7] |}.

(** A sampling that returns a single score whatever the batch size. *)
Definition short_sampling (logits : list float) (k : Z) (p t : float)
    (g : Instance.Generator) (batch_size : Z)
    : StatusOr (list Z) * list float * Instance.Generator :=
  (Value [2; 1], [one], g).

End MoreInstance.

(* ================================================================== *)
(** * Part II: properties                                              *)
(* ================================================================== *)

(** ** DefaultErrorListener *)

Section ErrorListener.
Import ParserCommon Props.

Lemma invoke_fails (l : DefaultErrorListener) (c : Callback) :
  status (invoke l c) = false.
Proof. destruct c; reflexivity. Qed.

Lemma run_from_failed (cs : list Callback) :
  forall l, status l = false -> status (run cs l) = false.
Proof.
  induction cs as [|c cs IH]; intros l Hl; simpl.
  - exact Hl.
  - apply IH, invoke_fails.
Qed.

Lemma run_status (cs : list Callback) (l : DefaultErrorListener) :
  status (run cs l) = status l && is_nil cs.
Proof.
  destruct cs as [|c cs]; simpl.
  - now rewrite andb_true_r.
  - rewrite andb_false_r. apply run_from_failed, invoke_fails.
Qed.

(** C7: a [DefaultErrorListener] starts in the pass state; each of the four
    diagnostic callbacks moves it to the fail state; nothing returns it to
    the pass state; after any sequence of callbacks [status()] is true
    exactly when no callback was invoked since construction. *)
Theorem DefaultErrorListener_pass_iff_no_callback (cs : list Callback) :
  status new_DefaultErrorListener = true /\
  (forall l ln col msg, status (syntaxError l ln col msg) = false) /\
  (forall l a b ex, status (reportAmbiguity l a b ex) = false) /\
  (forall l a b, status (reportAttemptingFullContext l a b) = false) /\
  (forall l a b p, status (reportContextSensitivity l a b p) = false) /\
  (forall l, status l = false -> status (run cs l) = false) /\
  (status (run cs new_DefaultErrorListener) = true <-> cs = []).
Proof.
  repeat split; try reflexivity.
  - apply run_from_failed.
  - rewrite run_status. destruct cs; simpl; [reflexivity | discriminate].
  - intros ->. reflexivity.
Qed.

Lemma DefaultErrorListener_pass_iff_no_callback_witness :
  status (run [ReportAmbiguity 0 3 true;
               SyntaxError 1 0 "no viable alternative"]
              (syntaxError new_DefaultErrorListener 1 4 "mismatched input"))
    = false /\
  status (run [] new_DefaultErrorListener) = true.
Proof.
  pose proof (DefaultErrorListener_pass_iff_no_callback
                [ReportAmbiguity 0 3 true;
                 SyntaxError 1 0 "no viable alternative"])
    as (_ & _ & _ & _ & _ & Hstay & _).
  pose proof (DefaultErrorListener_pass_iff_no_callback [])
    as (_ & _ & _ & _ & _ & _ & Hiff).
  split.
  - apply Hstay. reflexivity.
  - apply Hiff. reflexivity.
Defined.

End ErrorListener.

(** ** StripQuotes *)

Section Quotes.
Import ParserCommon Props.

Lemma string_split_last (s : string) :
  s <> EmptyString ->
  exists c, String.get (String.length s - 1) s = Some c /\
            s = String.substring 0 (String.length s - 1) s
                ++ String c EmptyString.
Proof.
  induction s as [|a s IH]; intros Hne; [congruence|].
  destruct s as [|b s'].
  - exists a. split; reflexivity.
  - destruct IH as (c & Hget & Hs); [discriminate|].
    exists c.
    assert (Hlen : (String.length (String a (String b s')) - 1
                    = S (String.length (String b s') - 1))%nat)
      by (cbn [String.length]; lia).
    rewrite Hlen. split.
    + exact Hget.
    + cbn [String.substring String.append]. f_equal. exact Hs.
Qed.

Lemma string_last_char (s : string) (c : ascii) :
  String.get (String.length s - 1) s = Some c ->
  s = String.substring 0 (String.length s - 1) s ++ String c EmptyString.
Proof.
  intros Hget. destruct s as [|a s]; [discriminate|].
  destruct (string_split_last (String a s)) as (c' & Hget' & Hs);
    [discriminate|].
  rewrite Hget in Hget'. injection Hget' as <-. exact Hs.
Qed.

Lemma ascii_neq_false (a b : ascii) : ascii_neq a b = false <-> a = b.
Proof.
  unfold ascii_neq. rewrite negb_false_iff. apply Ascii.eqb_eq.
Qed.

Lemma quote_test (q : ascii) :
  (ascii_neq q dquote && ascii_neq q squote) = false <->
  (q = squote \/ q = dquote).
Proof.
  rewrite andb_false_iff, !ascii_neq_false. tauto.
Qed.

Lemma StripQuotes_quoted (text : string) :
  quoted text ->
  StripQuotes text = String.substring 1 (String.length text - 2) text /\
  exists q, (q = squote \/ q = dquote) /\
            text = String q (StripQuotes text ++ String q EmptyString).
Proof.
  intros (Hlen & q & Hfront & Hback & Hq).
  assert (Hstrip : StripQuotes text
                   = String.substring 1 (String.length text - 2) text).
  { unfold StripQuotes, front, back, size, substr.
    destruct (Nat.ltb_spec (String.length text) 2) as [Hlt|_]; [lia|].
    rewrite Hfront, Hback.
    apply quote_test in Hq. rewrite Hq.
    assert (Hqq : ascii_neq q q = false) by now apply ascii_neq_false.
    rewrite Hqq. reflexivity. }
  split; [exact Hstrip|].
  exists q. split; [exact Hq|].
  rewrite Hstrip.
  destruct text as [|a rest]; [discriminate|].
  injection Hfront as ->.
  destruct rest as [|b rest']; [cbn in Hlen; lia|].
  f_equal.
  assert (Hn : (String.length (String q (String b rest')) - 2
                = String.length (String b rest') - 1)%nat)
    by (cbn [String.length]; lia).
  rewrite Hn.
  change (String.substring 1 ?n (String q ?s)) with (String.substring 0 n s).
  apply string_last_char.
  assert (Hm : (String.length (String q (String b rest')) - 1
                = S (String.length (String b rest') - 1))%nat)
    by (cbn [String.length]; lia).
  rewrite Hm in Hback. exact Hback.
Qed.

Lemma StripQuotes_unquoted (text : string) :
  ~ quoted text -> StripQuotes text = text.
Proof.
  intros Hnot. unfold StripQuotes, front, back, size, substr.
  destruct (Nat.ltb_spec (String.length text) 2) as [Hlt|Hge]; [reflexivity|].
  destruct (String.get 0 text) as [f|] eqn:Hfront; [|reflexivity].
  destruct (String.get (String.length text - 1) text) as [b|] eqn:Hback;
    [|reflexivity].
  destruct ((ascii_neq f dquote && ascii_neq f squote) || ascii_neq b f)
    eqn:Htest; [reflexivity|].
  apply orb_false_iff in Htest as [Hq Hbf].
  apply quote_test in Hq. apply ascii_neq_false in Hbf. subst b.
  exfalso. apply Hnot. split; [exact Hge|].
  exists f. auto.
Qed.

(** C2: [StripQuotes text] is [text] without its first and last characters
    exactly when [text] has length at least 2 and its first and last
    characters are the same quote character (single or double), and is
    [text] itself otherwise; the empty string, a lone quote, a one-sided
    quote and mismatched quotes are unchanged, matched empty quotes give
    the empty string. *)
Theorem StripQuotes_strips_matching_quotes (text : string) :
  (quoted text ->
     StripQuotes text = String.substring 1 (String.length text - 2) text /\
     exists q, (q = squote \/ q = dquote) /\
               text = String q (StripQuotes text ++ String q EmptyString)) /\
  (~ quoted text -> StripQuotes text = text) /\
  StripQuotes EmptyString = EmptyString /\
  StripQuotes (String dquote EmptyString) = String dquote EmptyString /\
  StripQuotes "'" = "'" /\
  StripQuotes (String dquote "a") = String dquote "a" /\
  StripQuotes ("a" ++ String dquote EmptyString)
    = "a" ++ String dquote EmptyString /\
  StripQuotes "'a" = "'a" /\
  StripQuotes "a'" = "a'" /\
  StripQuotes (String dquote "mismatched'") = String dquote "mismatched'" /\
  StripQuotes (String dquote (String dquote EmptyString)) = EmptyString /\
  StripQuotes (String squote (String squote EmptyString)) = EmptyString /\
  StripQuotes (String dquote ("hello" ++ String dquote EmptyString))
    = "hello" /\
  StripQuotes "'world'" = "world" /\
  StripQuotes (String dquote ("'mixed'" ++ String dquote EmptyString))
    = "'mixed'" /\
  StripQuotes "no quotes" = "no quotes".
Proof.
  split; [apply StripQuotes_quoted|].
  split; [apply StripQuotes_unquoted|].
  repeat split; reflexivity.
Qed.

Lemma StripQuotes_strips_matching_quotes_witness :
  StripQuotes "'get_weather'" = "get_weather" /\
  StripQuotes "it's" = "it's".
Proof.
  split.
  - destruct (StripQuotes_strips_matching_quotes "'get_weather'")
      as (Hq & _).
    destruct Hq as (Hsub & _).
    + split; [simpl; lia|]. exists squote. repeat split. now left.
    + rewrite Hsub. reflexivity.
  - destruct (StripQuotes_strips_matching_quotes "it's") as (_ & Hn & _).
    apply Hn. intros (_ & q & Hf & Hl & _).
    simpl in Hf, Hl. congruence.
Defined.

End Quotes.

(** ** The order on floats *)

Section FloatOrder.
Import Float32.

Lemma SFcompare_antisym (a b : float) :
  SFcompare b a = option_map CompOpp (SFcompare a b).
Proof.
  destruct a as [sa|sa| |sa ma ea], b as [sb|sb| |sb mb eb];
    try destruct sa; try destruct sb; try reflexivity; simpl;
    rewrite (Z.compare_antisym ea eb);
    destruct (ea ?= eb); simpl; try reflexivity;
    rewrite (Pos.compare_cont_antisym ma mb Eq); simpl;
    try rewrite CompOpp_involutive; reflexivity.
Qed.

Lemma leb_not_gt (a b : float) : leb a b = true -> ltb b a = false.
Proof.
  unfold leb, ltb, SFleb, SFltb. rewrite (SFcompare_antisym a b).
  destruct (SFcompare a b) as [[]|]; simpl; congruence.
Qed.

(** On floats that are not NaN, [ltb] is the lexicographic order of the
    ranks. *)
Lemma ltb_rank (a b : float) :
  is_nan a = false -> is_nan b = false ->
  (ltb a b = true <-> lex_lt (rank a) (rank b)).
Proof.
  unfold ltb, SFltb, lex_lt.
  destruct a as [sa|sa| |sa ma ea], b as [sb|sb| |sb mb eb];
    try discriminate; intros _ _;
    try destruct sa; try destruct sb; simpl;
    try (split; [discriminate | lia]);
    try (split; [lia | reflexivity]).
  all: destruct (Z.compare_spec ea eb);
       try rewrite Pos.compare_cont_spec; simpl;
       destruct (Pos.compare_spec ma mb); simpl;
       split; try discriminate; try reflexivity; lia.
Qed.

Lemma lex_lt_irrefl (x : Z * Z * Z) : ~ lex_lt x x.
Proof. destruct x as [[x1 x2] x3]. unfold lex_lt. lia. Qed.

Lemma lex_lt_asym (x y : Z * Z * Z) : lex_lt x y -> ~ lex_lt y x.
Proof.
  destruct x as [[x1 x2] x3], y as [[y1 y2] y3]. unfold lex_lt. lia.
Qed.

Lemma lex_lt_negtrans (x y z : Z * Z * Z) :
  ~ lex_lt x y -> ~ lex_lt y z -> ~ lex_lt x z.
Proof.
  destruct x as [[x1 x2] x3], y as [[y1 y2] y3], z as [[z1 z2] z3].
  unfold lex_lt. lia.
Qed.

Lemma ltb_false_rank (a b : float) :
  is_nan a = false -> is_nan b = false ->
  (ltb a b = false <-> ~ lex_lt (rank a) (rank b)).
Proof.
  intros Ha Hb. rewrite <- (ltb_rank a b Ha Hb).
  destruct (ltb a b); split; congruence.
Qed.

Lemma ltb_irrefl (a : float) : ltb a a = false.
Proof.
  destruct (is_nan a) eqn:Ha.
  - destruct a; try discriminate. reflexivity.
  - apply ltb_false_rank; auto using lex_lt_irrefl.
Qed.

Lemma ltb_asym (a b : float) :
  is_nan a = false -> is_nan b = false -> ltb a b = true -> ltb b a = false.
Proof.
  intros Ha Hb H. apply ltb_false_rank; auto.
  apply lex_lt_asym. now apply ltb_rank.
Qed.

Lemma ltb_negtrans (a b c : float) :
  is_nan a = false -> is_nan b = false -> is_nan c = false ->
  ltb a b = false -> ltb b c = false -> ltb a c = false.
Proof.
  intros Ha Hb Hc Hab Hbc.
  apply ltb_false_rank; auto.
  apply (lex_lt_negtrans _ (rank b)); now apply ltb_false_rank.
Qed.




End FloatOrder.

(** ** TopPSampler::Create *)

Section CreateProperties.
Import absl Float32 Tensor TopPCpuSampler.

Variable Generator : Type.
Variable make_generator : Z -> Generator.
Variable float_to_string : float -> string.

Local Abbreviation Create :=
  (Create Generator make_generator float_to_string).

(** C1: [Create] succeeds for every k>0, 0<=p<=1, temperature>=0 and
    batch_size>0; it fails with InvalidArgument, with a message naming the
    violated parameter and its bound, whenever k<=0, p<0, p>1,
    batch_size<=0 or temperature<0; the seed is never validated. *)
Theorem Create_validates_parameters
    (k : Z) (p temperature : float) (batch_size seed : Z) :
  (0 < k -> leb zero p = true -> leb p one = true ->
   leb zero temperature = true -> 0 < batch_size ->
   Create k p temperature batch_size seed
   = Value {| k_ := k; p_ := p; temperature_ := temperature;
              batch_size_ := batch_size;
              generator_ := make_generator seed; logits_data_ := [] |}) /\
  (k <= 0 ->
   Create k p temperature batch_size seed
   = Failed kInvalidArgument "k must be positive.") /\
  (0 < k -> ltb p zero = true \/ ltb one p = true ->
   Create k p temperature batch_size seed
   = Failed kInvalidArgument "p must be in [0, 1].") /\
  (0 < k -> ltb p zero = false -> ltb one p = false -> batch_size <= 0 ->
   Create k p temperature batch_size seed
   = Failed kInvalidArgument "batch_size must be positive.") /\
  (0 < k -> ltb p zero = false -> ltb one p = false -> 0 < batch_size ->
   ltb temperature zero = true ->
   Create k p temperature batch_size seed
   = Failed kInvalidArgument
       ("Temperature must be >= 0, but got " ++ float_to_string temperature)) /\
  (k <= 0 \/ ltb p zero = true \/ ltb one p = true \/ batch_size <= 0 \/
   ltb temperature zero = true ->
   exists msg,
     Create k p temperature batch_size seed = Failed kInvalidArgument msg /\
     ((k <= 0 /\ msg = "k must be positive.") \/
      ((ltb p zero = true \/ ltb one p = true) /\
       msg = "p must be in [0, 1].") \/
      (batch_size <= 0 /\ msg = "batch_size must be positive.") \/
      (ltb temperature zero = true /\
       msg = "Temperature must be >= 0, but got "
             ++ float_to_string temperature))) /\
  (forall seed',
     status (Create k p temperature batch_size seed')
     = status (Create k p temperature batch_size seed)).
Proof.
  unfold TopPCpuSampler.Create.
  destruct (Z.leb_spec k 0) as [Hk|Hk];
  destruct (ltb p zero) eqn:Hp0; destruct (ltb one p) eqn:Hp1;
  destruct (Z.leb_spec batch_size 0) as [Hb|Hb];
  destruct (ltb temperature zero) eqn:Ht; simpl;
  repeat (split; try (intros; (lia || congruence || reflexivity)));
  try (intros; exfalso;
       repeat match goal with
              | H : leb _ _ = true |- _ => apply leb_not_gt in H
              end; congruence);
  try (intros [?|[?|[?|[?|?]]]]; try (lia || congruence));
  try (intros; eexists; split; [reflexivity|]; tauto).
Qed.

End CreateProperties.

Lemma Create_validates_parameters_witness :
  absl.status (TopPCpuSampler.Create Instance.Generator Instance.make_generator
                 Instance.float_to_string 1 Instance.half Float32.one 1 1)
    = absl.OkStatus /\
  TopPCpuSampler.Create Instance.Generator Instance.make_generator
    Instance.float_to_string 0 Instance.half Float32.one 1 1
    = absl.Failed absl.kInvalidArgument "k must be positive." /\
  TopPCpuSampler.Create Instance.Generator Instance.make_generator
    Instance.float_to_string 1 (Float32.of_Z 2) Float32.one 1 1
    = absl.Failed absl.kInvalidArgument "p must be in [0, 1]." /\
  TopPCpuSampler.Create Instance.Generator Instance.make_generator
    Instance.float_to_string 1 Instance.half Float32.one 0 1
    = absl.Failed absl.kInvalidArgument "batch_size must be positive." /\
  TopPCpuSampler.Create Instance.Generator Instance.make_generator
    Instance.float_to_string 1 Instance.half Instance.minus_one 1 1
    = absl.Failed absl.kInvalidArgument
        "Temperature must be >= 0, but got negative" /\
  exists msg,
    TopPCpuSampler.Create Instance.Generator Instance.make_generator
      Instance.float_to_string 0 Instance.half Instance.minus_one 0 1
    = absl.Failed absl.kInvalidArgument msg.
Proof.
  pose (C := Create_validates_parameters Instance.Generator
               Instance.make_generator Instance.float_to_string).
  split; [|split; [|split; [|split; [|split]]]].
  - destruct (C 1 Instance.half Float32.one 1 1) as (H & _).
    rewrite H; [reflexivity | lia | reflexivity | reflexivity
                | reflexivity | lia].
  - destruct (C 0 Instance.half Float32.one 1 1) as (_ & H & _).
    apply H. lia.
  - destruct (C 1 (Float32.of_Z 2) Float32.one 1 1) as (_ & _ & H & _).
    apply H; [lia | right; reflexivity].
  - destruct (C 1 Instance.half Float32.one 0 1) as (_ & _ & _ & H & _).
    apply H; [lia | reflexivity | reflexivity | lia].
  - destruct (C 1 Instance.half Instance.minus_one 1 1)
      as (_ & _ & _ & _ & H & _).
    apply H; [lia | reflexivity | reflexivity | lia | reflexivity].
  - destruct (C 0 Instance.half Instance.minus_one 0 1)
      as (_ & _ & _ & _ & _ & H & _).
    destruct H as (msg & Hmsg & _); [left; lia|].
    exists msg. exact Hmsg.
Defined.

(** ** TopPSampler::SampleToIdAndScoreBuffer, for any TopKTopPSampling *)

Section SamplerProperties.
Import absl Float32 Tensor TopPCpuSampler.

Variable Generator : Type.
Variable NumSignificantDims : forall A, TensorBuffer A -> Z.
Variable logf : float -> float.
Variable TopKTopPSampling :
  list float -> Z -> float -> float -> Generator -> Z ->
  StatusOr (list Z) * list float * Generator.

Local Abbreviation Validate := (ValidateTensor NumSignificantDims).
Local Abbreviation Sample :=
  (SampleToIdAndScoreBuffer Generator NumSignificantDims logf
     TopKTopPSampling).

Lemma ValidateTensor_accepts {A} (t : TensorBuffer A) (max_num_dims b : Z)
    (name : string) (rest : list Z) :
  TensorType t = Value (b :: rest) ->
  NumSignificantDims A t <= max_num_dims ->
  Validate t max_num_dims b name = Some OkStatus.
Proof.
  intros Ht Hn. unfold TopPCpuSampler.ValidateTensor. rewrite Ht.
  destruct (Z.gtb_spec (NumSignificantDims A t) max_num_dims); [lia|].
  simpl. rewrite Z.eqb_refl. reflexivity.
Qed.

Lemma ValidateTensor_rejects {A} (t : TensorBuffer A) (max_num_dims b : Z)
    (name : string) (d0 : Z) (rest : list Z) :
  TensorType t = Value (d0 :: rest) ->
  max_num_dims < NumSignificantDims A t \/ d0 <> b ->
  exists msg,
    Validate t max_num_dims b name = Some (Error kInvalidArgument msg)
    /\ ((max_num_dims < NumSignificantDims A t /\
         msg = "The output " ++ name ++ " tensor must have <="
               ++ StrCat_int max_num_dims
               ++ " significant dimension, but got "
               ++ StrCat_int (NumSignificantDims A t)) \/
        (d0 <> b /\
         msg = "The output " ++ name
               ++ " tensor must have the same batch size as the input "
               ++ "logits tensor, but got "
               ++ StrCat_int d0 ++ " vs " ++ StrCat_int b)).
Proof.
  intros Ht Hbad. unfold TopPCpuSampler.ValidateTensor. rewrite Ht.
  destruct (Z.gtb_spec (NumSignificantDims A t) max_num_dims) as [Hgt|Hle].
  - eexists. split; [reflexivity|]. left. split; [lia | reflexivity].
  - destruct Hbad as [Hgt|Hne]; [lia|].
    simpl. destruct (Z.eqb_spec d0 b) as [->|_]; [congruence|].
    simpl. eexists. split; [reflexivity|]. right. split; [exact Hne|].
    reflexivity.
Qed.

(** C5: [SampleToIdAndScoreBuffer] returns InvalidArgument, with a message
    naming the tensor and the expected and actual sizes, whenever the
    logits tensor has more than 2 significant dimensions or a first
    dimension different from [batch_size_], or the ids tensor has more than
    1 significant dimension or a first dimension different from
    [batch_size_].  Nothing is sampled or written in that case. *)
Theorem SampleToIdAndScoreBuffer_rejects_shapes
    (s : TopPSampler Generator)
    (logits_tensor : TensorBuffer float) (ids_tensor : TensorBuffer Z)
    (scores_tensor : option (TensorBuffer float))
    (l0 i0 : Z) (lrest irest : list Z) :
  TensorType logits_tensor = Value (l0 :: lrest) ->
  TensorType ids_tensor = Value (i0 :: irest) ->
  2 < NumSignificantDims float logits_tensor \/ l0 <> batch_size_ s \/
  1 < NumSignificantDims Z ids_tensor \/ i0 <> batch_size_ s ->
  exists msg,
    Sample s logits_tensor ids_tensor scores_tensor
    = Some {| result := Error kInvalidArgument msg;
              sampler_after := s;
              ids_after := ids_tensor;
              scores_after := scores_tensor |} /\
    ((2 < NumSignificantDims float logits_tensor /\
      msg = "The output input logits tensor must have <=2"
            ++ " significant dimension, but got "
            ++ StrCat_int (NumSignificantDims float logits_tensor)) \/
     (l0 <> batch_size_ s /\
      msg = "The output input logits tensor must have the same batch size"
            ++ " as the input logits tensor, but got "
            ++ StrCat_int l0 ++ " vs " ++ StrCat_int (batch_size_ s)) \/
     (1 < NumSignificantDims Z ids_tensor /\
      msg = "The output output ids tensor must have <=1"
            ++ " significant dimension, but got "
            ++ StrCat_int (NumSignificantDims Z ids_tensor)) \/
     (i0 <> batch_size_ s /\
      msg = "The output output ids tensor must have the same batch size"
            ++ " as the input logits tensor, but got "
            ++ StrCat_int i0 ++ " vs " ++ StrCat_int (batch_size_ s))).
Proof.
  intros Hl Hi Hbad. unfold SampleToIdAndScoreBuffer.
  destruct (Z.ltb_spec 2 (NumSignificantDims float logits_tensor)) as [Hn|Hn];
    [|destruct (Z.eq_dec l0 (batch_size_ s)) as [He|He]].
  - destruct (ValidateTensor_rejects logits_tensor 2 (batch_size_ s)
                "input logits" l0 lrest Hl) as (msg & Hv & Hmsg);
      [left; exact Hn|].
    rewrite Hv. simpl. exists msg. split; [reflexivity|].
    destruct Hmsg as [[_ ->]|[Hne ->]].
    + left. split; [exact Hn | reflexivity].
    + right; left. split; [exact Hne | reflexivity].
  - subst l0.
    rewrite (ValidateTensor_accepts logits_tensor 2 (batch_size_ s)
               "input logits" lrest Hl Hn). simpl.
    destruct (ValidateTensor_rejects ids_tensor 1 (batch_size_ s)
                "output ids" i0 irest Hi) as (msg & Hv & Hmsg).
    { destruct Hbad as [?|[?|[?|?]]]; [lia | congruence | now left
                                       | now right]. }
    rewrite Hv. simpl. exists msg. split; [reflexivity|].
    destruct Hmsg as [[Hgt ->]|[Hne ->]].
    + right; right; left. split; [exact Hgt | reflexivity].
    + right; right; right. split; [exact Hne | reflexivity].
  - destruct (ValidateTensor_rejects logits_tensor 2 (batch_size_ s)
                "input logits" l0 lrest Hl) as (msg & Hv & Hmsg);
      [right; exact He|].
    rewrite Hv. simpl. exists msg. split; [reflexivity|].
    destruct Hmsg as [[Hgt ->]|[Hne ->]].
    + left. split; [exact Hgt | reflexivity].
    + right; left. split; [exact Hne | reflexivity].
Qed.

(** C10: with valid logits and ids tensors and a scores tensor of invalid
    shape, the call returns InvalidArgument only after sampling has run:
    the sampled ids are already written into the ids tensor and the
    generator is the one [TopKTopPSampling] left behind; the scores tensor
    is untouched. *)
Theorem scores_tensor_validated_after_ids_written
    (s : TopPSampler Generator)
    (logits_tensor : TensorBuffer float) (ids_tensor : TensorBuffer Z)
    (scores_tensor : TensorBuffer float)
    (lrest irest : list Z) (c0 : Z) (crest : list Z)
    (logits_data cache : list float)
    (sampled_ids : list Z) (sampled_scores : list float) (g : Generator) :
  TensorType logits_tensor = Value (batch_size_ s :: lrest) ->
  NumSignificantDims float logits_tensor <= 2 ->
  TensorType ids_tensor = Value (batch_size_ s :: irest) ->
  NumSignificantDims Z ids_tensor <= 1 ->
  logits_span Generator s logits_tensor = Value (logits_data, cache) ->
  TopKTopPSampling logits_data (k_ s) (p_ s) (temperature_ s)
                   (generator_ s) (batch_size_ s)
  = (Value sampled_ids, sampled_scores, g) ->
  TensorType scores_tensor = Value (c0 :: crest) ->
  1 < NumSignificantDims float scores_tensor \/ c0 <> batch_size_ s ->
  exists msg,
    Sample s logits_tensor ids_tensor (Some scores_tensor)
    = Some {| result := Error kInvalidArgument msg;
              sampler_after := with_state Generator s g cache;
              ids_after := Write ids_tensor sampled_ids;
              scores_after := Some scores_tensor |} /\
    contents (Write ids_tensor sampled_ids)
    = (sampled_ids
       ++ skipn (List.length sampled_ids) (contents ids_tensor))%list /\
    generator_ (with_state Generator s g cache) = g.
Proof.
  intros Hl Hnl Hi Hni Hspan Hsample Hc Hbad.
  unfold SampleToIdAndScoreBuffer.
  rewrite (ValidateTensor_accepts logits_tensor 2 (batch_size_ s)
             "input logits" lrest Hl Hnl). simpl.
  rewrite (ValidateTensor_accepts ids_tensor 1 (batch_size_ s)
             "output ids" irest Hi Hni). simpl.
  rewrite Hspan, Hsample.
  destruct (ValidateTensor_rejects scores_tensor 1 (batch_size_ s)
              "output scores" c0 crest Hc Hbad) as (msg & Hv & _).
  rewrite Hv. simpl. exists msg. repeat split.
Qed.

End SamplerProperties.

Lemma SampleToIdAndScoreBuffer_rejects_shapes_witness :
  exists msg,
    Instance.SampleToIdAndScoreBuffer Instance.sampler
      (Instance.tensor [3; 4] Instance.logits) (Instance.tensor [2] [0; 0])
      None
    = Some {| TopPCpuSampler.result := absl.Error absl.kInvalidArgument msg;
              TopPCpuSampler.sampler_after := Instance.sampler;
              TopPCpuSampler.ids_after := Instance.tensor [2] [0; 0];
              TopPCpuSampler.scores_after := None |}.
Proof.
  destruct (SampleToIdAndScoreBuffer_rejects_shapes
              Instance.Generator Instance.NumSignificantDims Instance.logf
              Instance.TopKTopPSampling Instance.sampler
              (Instance.tensor [3; 4] Instance.logits)
              (Instance.tensor [2] [0; 0]) None 3 2 [4] [])
    as (msg & Hrun & _).
  - reflexivity.
  - reflexivity.
  - right; left. simpl. lia.
  - exists msg. exact Hrun.
Defined.

Lemma scores_tensor_validated_after_ids_written_witness :
  exists msg out,
    Instance.SampleToIdAndScoreBuffer Instance.sampler
      (Instance.tensor [2; 4] Instance.logits) (Instance.tensor [2] [0; 0])
      (Some (Instance.tensor [3] [Float32.nan; Float32.nan; Float32.nan]))
    = Some out /\
    TopPCpuSampler.result out = absl.Error absl.kInvalidArgument msg /\
    Tensor.contents (TopPCpuSampler.ids_after out) = [2; 1] /\
    TopPCpuSampler.generator_ (TopPCpuSampler.sampler_after out) = 3.
Proof.
  destruct (scores_tensor_validated_after_ids_written
              Instance.Generator Instance.NumSignificantDims Instance.logf
              Instance.TopKTopPSampling Instance.sampler
              (Instance.tensor [2; 4] Instance.logits)
              (Instance.tensor [2] [0; 0])
              (Instance.tensor [3] [Float32.nan; Float32.nan; Float32.nan])
              [4] [] 3 [] Instance.logits []
              [2; 1] [Float32.one; Float32.one] 3)
    as (msg & Hrun & Hids & Hgen).
  - reflexivity.
  - vm_compute. discriminate.
  - reflexivity.
  - vm_compute. discriminate.
  - reflexivity.
  - vm_compute. reflexivity.
  - reflexivity.
  - right. simpl. lia.
  - exists msg. eexists. split; [exact Hrun|]. repeat split.
Defined.

(** ** TopKTopPSampling as the specification describes it *)

Section SamplingProperties.
Import absl Float32 SamplingCpuUtil Props.

Variable Generator : Type.
Variable expf : float -> float.
Variable draw : Generator -> list float -> nat * Generator.

(** A draw from a non-empty distribution is an index into it. *)
Hypothesis draw_in_range :
  forall g weights,
    weights <> [] -> (fst (draw g weights) < List.length weights)%nat.

Local Abbreviation final_distribution := (final_distribution expf).
Local Abbreviation softmax := (softmax expf).
Local Abbreviation sample_row := (sample_row Generator expf draw).
Local Abbreviation sample_rows := (sample_rows Generator expf draw).
Local Abbreviation TopKTopPSampling :=
  (TopKTopPSampling Generator expf draw).

Lemma map_fst_map_value (f : float -> float) (cs : list Candidate) :
  map fst (map_value f cs) = map fst cs.
Proof.
  unfold map_value. rewrite map_map. reflexivity.
Qed.

Lemma length_map_value (f : float -> float) (cs : list Candidate) :
  List.length (map_value f cs) = List.length cs.
Proof. apply length_map. Qed.

Lemma hd_insert_desc (c : Candidate) (l : list Candidate) :
  hd_error (insert_desc c l)
  = match hd_error l with
    | Some d => if ltb (snd c) (snd d) then Some d else Some c
    | None => Some c
    end.
Proof.
  destruct l as [|d l]; simpl; [reflexivity|].
  destruct (ltb (snd c) (snd d)); reflexivity.
Qed.

(** The head of the sorted candidates is the first maximal element. *)
Lemma hd_sort_desc (row : list float) :
  forall i, hd_error (sort_desc (number_from i row)) = argmax_from i row.
Proof.
  induction row as [|x row IH]; intros i; simpl; [reflexivity|].
  rewrite hd_insert_desc, IH.
  destruct (argmax_from (i + 1) row) as [best|]; reflexivity.
Qed.

Lemma length_insert_desc (c : Candidate) (l : list Candidate) :
  List.length (insert_desc c l) = S (List.length l).
Proof.
  induction l as [|d l IH]; simpl; [reflexivity|].
  destruct (ltb (snd c) (snd d)); simpl; congruence.
Qed.

Lemma argmax_from_nonempty (row : list float) (i : Z) :
  row <> [] -> exists best, argmax_from i row = Some best.
Proof.
  destruct row as [|x row]; [congruence|]. intros _. simpl.
  destruct (argmax_from (i + 1) row) as [best|]; [|eauto].
  destruct (ltb x (snd best)); eauto.
Qed.

(** With [k >= 1] the first of the top-k candidates is the first maximal
    element of the row. *)
Lemma hd_top_k (k : Z) (row : list float) :
  1 <= k -> hd_error (top_k k row) = argmax_from 0 row.
Proof.
  intros Hk. unfold top_k. rewrite <- hd_sort_desc.
  destruct (Z.to_nat k) as [|n] eqn:Hn; [lia|].
  destruct (sort_desc (number_from 0 row)); reflexivity.
Qed.

Lemma top_1 (row : list float) :
  top_k 1 row = match argmax_from 0 row with
                | Some best => [best]
                | None => []
                end.
Proof.
  unfold top_k. rewrite <- hd_sort_desc.
  change (Z.to_nat 1) with 1%nat.
  destruct (sort_desc (number_from 0 row)); reflexivity.
Qed.

(** What [argmax_from] returns: an element of the row that no element
    exceeds and that every earlier element is strictly below. *)
Lemma argmax_from_spec (row : list float) :
  no_nan row ->
  forall i id v,
    argmax_from i row = Some (id, v) ->
    i <= id < i + Z.of_nat (List.length row) /\
    nth_error row (Z.to_nat (id - i)) = Some v /\
    (forall j w, nth_error row j = Some w -> ltb v w = false) /\
    (forall j w, (j < Z.to_nat (id - i))%nat -> nth_error row j = Some w ->
                 ltb w v = true).
Proof.
  induction 1 as [|x row Hx Hrow IH]; intros i id v; simpl; [discriminate|].
  assert (Hnan : forall j w, nth_error row j = Some w -> is_nan w = false).
  { intros j w Hj. apply nth_error_In in Hj.
    rewrite Forall_forall in Hrow. now apply Hrow. }
  destruct (argmax_from (i + 1) row) as [[id' v']|] eqn:Hrest.
  - destruct (IH _ _ _ Hrest) as (Hid & Hnth & Hmax & Hfirst).
    pose proof (Hnan _ _ Hnth) as Hv'.
    simpl. destruct (ltb x v') eqn:Hlt; intros [= <- <-].
    + replace (Z.to_nat (id' - i)) with (S (Z.to_nat (id' - (i + 1))))
        by lia.
      split; [lia|]. split; [exact Hnth|]. split.
      * intros [|j] w Hj; simpl in Hj.
        -- injection Hj as <-. now apply ltb_asym.
        -- eauto.
      * intros [|j] w Hlt' Hj; simpl in Hj.
        -- injection Hj as <-. exact Hlt.
        -- apply (Hfirst j); [lia | exact Hj].
    + replace (i - i) with 0 by lia.
      split; [lia|]. split; [reflexivity|]. split.
      * intros [|j] w Hj; simpl in Hj.
        -- injection Hj as <-. apply ltb_irrefl.
        -- apply (ltb_negtrans x v' w); eauto.
      * intros j w Hj. simpl in Hj. lia.
  - intros [= <- <-]. replace (i - i) with 0 by lia.
    destruct row as [|y row'].
    + split; [simpl; lia|]. split; [reflexivity|]. split.
      * intros [|[|j]] w Hj; simpl in Hj; try discriminate.
        injection Hj as <-. apply ltb_irrefl.
      * intros j w Hj. simpl in Hj. lia.
    + exfalso. destruct (argmax_from_nonempty (y :: row') (i + 1))
        as (b & Hb); [discriminate|]. congruence.
Qed.

Lemma nucleus_firstn (p : float) (cs : list Candidate) :
  nucleus p cs = firstn (List.length (nucleus p cs)) cs.
Proof.
  destruct cs as [|c rest]; simpl; [reflexivity|].
  f_equal. rewrite length_firstn.
  set (n := prefix_len p (snd c) (map snd rest)).
  destruct (Nat.le_ge_cases n (List.length rest)) as [Hle|Hge].
  - now rewrite Nat.min_l.
  - rewrite Nat.min_r by exact Hge.
    now rewrite firstn_all, firstn_all2.
Qed.

Lemma nucleus_nonempty (p : float) (cs : list Candidate) :
  cs <> [] -> nucleus p cs <> [].
Proof. destruct cs; [congruence | discriminate]. Qed.

Lemma map_value_firstn (f : float -> float) (n : nat) (cs : list Candidate) :
  map_value f (firstn n cs) = firstn n (map_value f cs).
Proof. unfold map_value. symmetry. apply firstn_map. Qed.

Lemma map_fst_normalize (cs : list Candidate) :
  map fst (normalize cs) = map fst cs.
Proof. unfold normalize. apply map_fst_map_value. Qed.

Lemma map_fst_softmax_scale (temperature : float) (cs : list Candidate) :
  map fst (softmax (scale temperature cs)) = map fst cs.
Proof.
  unfold SamplingCpuUtil.softmax, scale.
  now rewrite map_fst_normalize, !map_fst_map_value.
Qed.

Lemma map_fst_nil (cs : list Candidate) : map fst cs = [] -> cs = [].
Proof. destruct cs; [reflexivity | discriminate]. Qed.

(** The final distribution keeps a non-empty prefix of the top-k
    candidates, in their order. *)
Lemma final_distribution_ids (k : Z) (p temperature : float)
    (row : list float) :
  let dist := final_distribution k p temperature row in
  map fst dist = firstn (List.length dist) (map fst (top_k k row)) /\
  (top_k k row <> [] -> dist <> []).
Proof.
  unfold SamplingCpuUtil.final_distribution.
  set (cs := softmax (scale temperature (top_k k row))).
  assert (Hcs : map fst cs = map fst (top_k k row))
    by apply map_fst_softmax_scale.
  assert (Hlen : List.length (normalize (nucleus p cs))
                 = List.length (nucleus p cs)).
  { unfold normalize. apply length_map_value. }
  cbv zeta. split.
  - rewrite map_fst_normalize, Hlen.
    rewrite (nucleus_firstn p cs) at 1.
    rewrite <- firstn_map. f_equal. exact Hcs.
  - intros Hne Hnil.
    apply (nucleus_nonempty p cs).
    + intros ->. simpl in Hcs. symmetry in Hcs.
      now apply map_fst_nil in Hcs.
    + apply map_fst_nil. rewrite <- map_fst_normalize, Hnil. reflexivity.
Qed.

(** *** The procedure against the description of section 4.1 *)















(** One row: a choice is always made; with temperature zero it is the
    first maximal element with probability one, otherwise an entry of the
    final distribution. *)
Lemma sample_row_chooses (k : Z) (p temperature : float) (g : Generator)
    (row : list float) :
  1 <= k -> row <> [] ->
  exists id prob g',
    sample_row k p temperature g row = (Some (id, prob), g') /\
    (eqb temperature zero = true ->
       prob = one /\ argmax row = Some id) /\
    (eqb temperature zero = false ->
       exists i,
         i = fst (draw g (map snd (final_distribution k p temperature row)))
         /\
         nth_error (final_distribution k p temperature row) i
         = Some (id, prob)).
Proof.
  intros Hk Hrow. unfold SamplingCpuUtil.sample_row.
  destruct (argmax_from_nonempty row 0 Hrow) as (best & Hbest).
  pose proof (hd_top_k k row Hk) as Hhd. rewrite Hbest in Hhd.
  destruct (top_k k row) as [|c rest] eqn:Htop; [discriminate|].
  injection Hhd as ->.
  destruct (eqb temperature zero) eqn:Ht.
  - exists (fst best), one, g. split; [reflexivity|]. split; [|discriminate].
    intros _. split; [reflexivity|]. unfold argmax. now rewrite Hbest.
  - destruct (final_distribution_ids k p temperature row) as (_ & Hne).
    specialize (Hne ltac:(rewrite Htop; discriminate)).
    set (dist := final_distribution k p temperature row) in *.
    pose proof (draw_in_range g (map snd dist)) as Hrange.
    destruct (draw g (map snd dist)) as [i g'] eqn:Hdraw. simpl in Hrange.
    rewrite length_map in Hrange.
    destruct (nth_error dist i) as [[id prob]|] eqn:Hnth.
    + exists id, prob, g'. split; [reflexivity|]. split; [discriminate|].
      intros _. exists i. split; [reflexivity | exact Hnth].
    + exfalso. apply nth_error_None in Hnth.
      assert (map snd dist <> []) as Hm
        by (destruct dist; [congruence | discriminate]).
      specialize (Hrange Hm).
      exact (Nat.lt_irrefl _ (Nat.lt_le_trans _ _ _ Hrange Hnth)).
Qed.




(** With [k = 1] the final distribution holds the first maximal element
    only. *)
Lemma final_distribution_top_1 (p temperature : float) (row : list float)
    (i : nat) (id : Z) (prob : float) :
  nth_error (final_distribution 1 p temperature row) i = Some (id, prob) ->
  argmax row = Some id.
Proof.
  intros Hnth.
  destruct (final_distribution_ids 1 p temperature row) as (Hids & _).
  rewrite top_1 in Hids. unfold argmax.
  destruct (argmax_from 0 row) as [best|].
  - assert (Hin : In id (map fst (final_distribution 1 p temperature row))).
    { apply nth_error_In in Hnth. apply (in_map fst) in Hnth. exact Hnth. }
    rewrite Hids in Hin. simpl in Hin.
    destruct (List.length (final_distribution 1 p temperature row));
      simpl in Hin; [destruct Hin|].
    rewrite firstn_nil in Hin. destruct Hin as [<-|[]]. reflexivity.
  - simpl in Hids. rewrite firstn_nil in Hids.
    apply nth_error_In in Hnth. apply (in_map fst) in Hnth.
    rewrite Hids in Hnth. destruct Hnth.
Qed.

Lemma sample_row_greedy (k : Z) (p temperature : float) (g : Generator)
    (row : list float) :
  1 <= k -> row <> [] ->
  k = 1 \/ eqb temperature zero = true ->
  exists id prob g',
    sample_row k p temperature g row = (Some (id, prob), g') /\
    argmax row = Some id.
Proof.
  intros Hk Hrow Hgreedy.
  destruct (sample_row_chooses k p temperature g row Hk Hrow)
    as (id & prob & g' & Hrun & Hzero & Hpos).
  exists id, prob, g'. split; [exact Hrun|].
  destruct (eqb temperature zero) eqn:Ht.
  - now apply Hzero.
  - destruct Hgreedy as [->|]; [|discriminate].
    destruct (Hpos eq_refl) as (i & _ & Hnth).
    eapply final_distribution_top_1; eauto.
Qed.

Lemma sample_rows_each (k : Z) (p temperature : float)
    (Q : list float -> Z -> float -> Prop) (rows : list (list float)) :
  (forall row, In row rows -> forall g,
     exists id prob g',
       sample_row k p temperature g row = (Some (id, prob), g') /\
       Q row id prob) ->
  forall g,
  exists ids probs g',
    sample_rows k p temperature g rows = (Some (ids, probs), g') /\
    List.length ids = List.length rows /\
    List.length probs = List.length rows /\
    forall r row, nth_error rows r = Some row ->
      exists id prob,
        nth_error ids r = Some id /\ nth_error probs r = Some prob /\
        Q row id prob.
Proof.
  induction rows as [|row rows IH]; intros Hrows g.
  - exists [], [], g. repeat split. intros [|r] row H; discriminate.
  - destruct (Hrows row (or_introl eq_refl) g)
      as (id & prob & g1 & Hrow & HQ).
    destruct (IH (fun row' H => Hrows row' (or_intror H)) g1)
      as (ids & probs & g2 & Hrest & Hlen1 & Hlen2 & Hnth).
    exists (id :: ids), (prob :: probs), g2.
    simpl. rewrite Hrow, Hrest. repeat split; try (simpl; congruence).
    intros [|r] row' Hr; simpl in Hr.
    + injection Hr as <-. exists id, prob. auto.
    + apply (Hnth r row' Hr).
Qed.

Lemma nth_error_rows_of (vocab : nat) :
  forall n logits r,
    (r < n)%nat ->
    nth_error (rows_of vocab n logits) r = Some (row_at vocab r logits).
Proof.
  unfold row_at.
  induction n as [|n IH]; intros logits r Hr; [lia|].
  destruct r as [|r]; simpl.
  - reflexivity.
  - rewrite IH by lia. rewrite skipn_skipn.
    do 3 f_equal. lia.
Qed.

Lemma length_rows_of (vocab : nat) :
  forall n logits, List.length (rows_of vocab n logits) = n.
Proof. induction n; intros; simpl; congruence. Qed.

Lemma length_row_at (vocab r : nat) (logits : list float) :
  (S r * vocab <= List.length logits)%nat ->
  List.length (row_at vocab r logits) = vocab.
Proof.
  intros H. unfold row_at. rewrite length_firstn, length_skipn. nia.
Qed.

Lemma no_nan_row_at (vocab r : nat) (logits : list float) :
  no_nan logits -> no_nan (row_at vocab r logits).
Proof.
  unfold no_nan, row_at. rewrite !Forall_forall. intros H x Hx.
  apply H.
  assert (Hin : In x (skipn (r * vocab) logits)).
  { rewrite <- (firstn_skipn vocab (skipn (r * vocab) logits)).
    apply in_or_app. now left. }
  rewrite <- (firstn_skipn (r * vocab) logits).
  apply in_or_app. now right.
Qed.

Lemma vocab_size_exact (logits : list float) (batch_size : Z) (vocab : nat) :
  0 < batch_size ->
  List.length logits = (Z.to_nat batch_size * vocab)%nat ->
  vocab_size logits batch_size = vocab.
Proof.
  intros Hb Hlen. unfold vocab_size. rewrite Hlen.
  rewrite Nat2Z.inj_mul, Z2Nat.id by lia.
  rewrite Z.mul_comm, Z.div_mul by lia. apply Nat2Z.id.
Qed.

(** On a buffer of [batch_size] non-empty rows the sampling succeeds, and
    whatever holds of each row's choice holds of the returned ids and
    scores. *)
Lemma TopKTopPSampling_each (Q : list float -> Z -> float -> Prop)
    (logits : list float) (k : Z) (p temperature : float) (g : Generator)
    (batch_size : Z) (vocab : nat) :
  0 < batch_size -> (0 < vocab)%nat ->
  List.length logits = (Z.to_nat batch_size * vocab)%nat ->
  (forall r g0, (r < Z.to_nat batch_size)%nat ->
     exists id prob g',
       sample_row k p temperature g0 (row_at vocab r logits)
       = (Some (id, prob), g') /\
       Q (row_at vocab r logits) id prob) ->
  exists ids probs g',
    TopKTopPSampling logits k p temperature g batch_size
    = (Value ids, probs, g') /\
    List.length ids = Z.to_nat batch_size /\
    List.length probs = Z.to_nat batch_size /\
    forall r, (r < Z.to_nat batch_size)%nat ->
      exists id prob,
        nth_error ids r = Some id /\ nth_error probs r = Some prob /\
        Q (row_at vocab r logits) id prob.
Proof.
  intros Hb Hv Hlen Hrows.
  unfold SamplingCpuUtil.TopKTopPSampling.
  rewrite (vocab_size_exact logits batch_size vocab Hb Hlen).
  set (rows := rows_of vocab (Z.to_nat batch_size) logits).
  destruct (sample_rows_each k p temperature Q rows) with (g := g)
    as (ids & probs & g' & Hrun & Hl1 & Hl2 & Hnth).
  { intros row Hin g0. apply In_nth_error in Hin as (r & Hr).
    assert (Hlt : (r < Z.to_nat batch_size)%nat).
    { rewrite <- (length_rows_of vocab (Z.to_nat batch_size) logits).
      apply nth_error_Some. unfold rows in Hr. congruence. }
    unfold rows in Hr. rewrite nth_error_rows_of in Hr by exact Hlt.
    injection Hr as <-. now apply Hrows. }
  exists ids, probs, g'. rewrite Hrun.
  unfold rows in Hl1, Hl2. rewrite length_rows_of in Hl1, Hl2.
  repeat split; try assumption.
  intros r Hr. apply (Hnth r). unfold rows.
  now apply nth_error_rows_of.
Qed.

End SamplingProperties.

(** ** SampleToIdAndScoreBuffer on well-shaped tensors *)

Section SamplerRuns.
Import absl Float32 Tensor TopPCpuSampler Props.

Variable Generator : Type.
Variable NumSignificantDims : forall A, TensorBuffer A -> Z.
Variable logf : float -> float.
Variable TopKTopPSampling :
  list float -> Z -> float -> float -> Generator -> Z ->
  StatusOr (list Z) * list float * Generator.

Local Abbreviation Sample :=
  (SampleToIdAndScoreBuffer Generator NumSignificantDims logf
     TopKTopPSampling).

Lemma skipn_nth_error {A} (l : list A) :
  forall a x, nth_error l a = Some x -> skipn a l = x :: skipn (S a) l.
Proof.
  induction l as [|y l IH]; intros [|a] x H; simpl in *; try discriminate.
  - now injection H as ->.
  - now apply IH.
Qed.

Lemma log_scores_firstn (sampled_scores : list float) :
  forall n a,
    (a + n <= List.length sampled_scores)%nat ->
    log_scores logf sampled_scores (seq a n)
    = Some (map logf (firstn n (skipn a sampled_scores))).
Proof.
  induction n as [|n IH]; intros a Hlen; simpl; [reflexivity|].
  destruct (nth_error sampled_scores a) as [x|] eqn:Hx.
  - simpl. rewrite IH by lia. simpl.
    rewrite (skipn_nth_error sampled_scores a x Hx). reflexivity.
  - apply nth_error_None in Hx. lia.
Qed.

Lemma overwrite_same_length {A} (src dst : list A) :
  List.length dst = List.length src -> overwrite src dst = src.
Proof.
  intros H. unfold overwrite. rewrite <- H, skipn_all. apply app_nil_r.
Qed.

Lemma nth_error_overwrite {A} (src dst : list A) (r : nat) :
  (r < List.length src)%nat ->
  nth_error (overwrite src dst) r = nth_error src r.
Proof. intros H. unfold overwrite. now apply nth_error_app1. Qed.

(** The logits reach the sampling as they are in the tensor, whether they
    are on the host or have to be downloaded. *)
Lemma logits_span_contents (s : TopPSampler Generator)
    (logits_tensor : TensorBuffer float) :
  host_memory logits_tensor = true \/
  PackedSize logits_tensor
  = Value (sizeof_float * Z.of_nat (List.length (contents logits_tensor))) ->
  exists cache,
    logits_span Generator s logits_tensor
    = Value (contents logits_tensor, cache).
Proof.
  unfold logits_span. intros [Hhost|Hsize].
  - rewrite Hhost. eauto.
  - destruct (host_memory logits_tensor); [eauto|].
    rewrite Hsize.
    rewrite Z.mul_comm, Z.div_mul by (unfold sizeof_float; lia).
    set (n := List.length (contents logits_tensor)).
    set (buffer := if Z.of_nat (List.length (logits_data_ s)) =? Z.of_nat n
                   then logits_data_ s
                   else repeat zero (Z.to_nat (Z.of_nat n))).
    assert (Hlen : List.length buffer = n).
    { unfold buffer.
      destruct (Z.eqb_spec (Z.of_nat (List.length (logits_data_ s)))
                           (Z.of_nat n)); [lia|].
      rewrite repeat_length. lia. }
    assert (Hread : Read logits_tensor buffer = contents logits_tensor).
    { unfold Read. rewrite Hlen. unfold n. rewrite firstn_all.
      apply overwrite_same_length. exact Hlen. }
    rewrite Hread. eauto.
Qed.

Lemma Sample_succeeds (s : TopPSampler Generator)
    (logits_tensor : TensorBuffer float) (ids_tensor : TensorBuffer Z)
    (scores_tensor : option (TensorBuffer float))
    (lrest irest : list Z) (logits_data cache : list float)
    (ids : list Z) (probs : list float) (g : Generator) :
  TensorType logits_tensor = Value (batch_size_ s :: lrest) ->
  NumSignificantDims float logits_tensor <= 2 ->
  TensorType ids_tensor = Value (batch_size_ s :: irest) ->
  NumSignificantDims Z ids_tensor <= 1 ->
  match scores_tensor with
  | None => True
  | Some scores_t =>
      exists crest, TensorType scores_t = Value (batch_size_ s :: crest) /\
                    NumSignificantDims float scores_t <= 1
  end ->
  logits_span Generator s logits_tensor = Value (logits_data, cache) ->
  TopKTopPSampling logits_data (k_ s) (p_ s) (temperature_ s)
                   (generator_ s) (batch_size_ s)
  = (Value ids, probs, g) ->
  (Z.to_nat (batch_size_ s) <= List.length probs)%nat ->
  Sample s logits_tensor ids_tensor scores_tensor
  = Some {| result := OkStatus;
            sampler_after := with_state Generator s g cache;
            ids_after := Write ids_tensor ids;
            scores_after :=
              option_map
                (fun scores_t =>
                   Write scores_t
                     (map logf (firstn (Z.to_nat (batch_size_ s)) probs)))
                scores_tensor |}.
Proof.
  intros Hl Hnl Hi Hni Hsc Hspan Hsample Hlen.
  unfold SampleToIdAndScoreBuffer.
  rewrite (ValidateTensor_accepts NumSignificantDims logits_tensor 2
             (batch_size_ s) "input logits" lrest Hl Hnl). simpl.
  rewrite (ValidateTensor_accepts NumSignificantDims ids_tensor 1
             (batch_size_ s) "output ids" irest Hi Hni). simpl.
  rewrite Hspan, Hsample.
  destruct scores_tensor as [scores_t|]; [|reflexivity].
  destruct Hsc as (crest & Hc & Hnc).
  rewrite (ValidateTensor_accepts NumSignificantDims scores_t 1
             (batch_size_ s) "output scores" crest Hc Hnc). simpl.
  rewrite log_scores_firstn by lia. reflexivity.
Qed.

End SamplerRuns.

(** ** The sampler with TopKTopPSampling as specified *)

Section SamplerWithSampling.
Import absl Float32 Tensor TopPCpuSampler SamplingCpuUtil Props.

Variable Generator : Type.
Variable make_generator : Z -> Generator.
Variable float_to_string : float -> string.
Variable NumSignificantDims : forall A, TensorBuffer A -> Z.
Variable logf : float -> float.
Variable expf : float -> float.
Variable draw : Generator -> list float -> nat * Generator.

Local Abbreviation Create :=
  (Create Generator make_generator float_to_string).
Local Abbreviation TopKTopPSampling :=
  (TopKTopPSampling Generator expf draw).
Local Abbreviation Sample :=
  (SampleToIdAndScoreBuffer Generator NumSignificantDims logf
     TopKTopPSampling).
Local Abbreviation final_distribution := (final_distribution expf).
Local Abbreviation softmax := (softmax expf).

Lemma Create_inv (k : Z) (p temperature : float) (batch_size seed : Z)
    (s : TopPSampler Generator) :
  Create k p temperature batch_size seed = Value s ->
  0 < k /\ 0 < batch_size /\
  s = {| k_ := k; p_ := p; temperature_ := temperature;
         batch_size_ := batch_size;
         generator_ := make_generator seed; logits_data_ := [] |}.
Proof.
  unfold TopPCpuSampler.Create.
  destruct (Z.leb_spec k 0); [discriminate|].
  destruct (ltb p zero || ltb one p); [discriminate|].
  destruct (Z.leb_spec batch_size 0); [discriminate|].
  destruct (ltb temperature zero); [discriminate|].
  intros [= <-]. auto.
Qed.

Lemma argmax_first_maximum (row : list float) (id : Z) :
  no_nan row -> argmax row = Some id -> first_maximum row id.
Proof.
  intros Hrow Harg. unfold argmax in Harg.
  destruct (argmax_from 0 row) as [[id' v]|] eqn:Hbest; [|discriminate].
  injection Harg as ->.
  destruct (argmax_from_spec row Hrow 0 id v Hbest)
    as (Hid & Hnth & Hmax & Hfirst).
  rewrite Z.sub_0_r in Hnth, Hfirst.
  split; [lia|]. exists v. auto.
Qed.

Lemma row_at_nonempty (vocab r : nat) (logits : list float) (n : nat) :
  (0 < vocab)%nat -> (r < n)%nat ->
  List.length logits = (n * vocab)%nat ->
  row_at vocab r logits <> [].
Proof.
  intros Hv Hr Hlen Hnil.
  apply (f_equal (@List.length _)) in Hnil.
  rewrite length_row_at in Hnil by nia. simpl in Hnil. lia.
Qed.

(** C3: when [k = 1] or [temperature = 0], every batch row gets the single
    highest-logit candidate of that row (the first one among equals),
    whatever the state of the generator and whatever the sampler holds
    from earlier calls: two samplers of the same configuration, such as
    those that [Create] makes from two seeds, write the same ids.  For
    instance the row [0, 0, 10, 0] gives id 2. *)
Theorem greedy_selection_for_k1_or_zero_temperature
    (s s' : TopPSampler Generator)
    (logits_tensor : TensorBuffer float) (ids_tensor : TensorBuffer Z)
    (scores_tensor : option (TensorBuffer float))
    (lrest irest : list Z) (vocab : nat) :
  (forall g weights,
     weights <> [] -> (fst (draw g weights) < List.length weights)%nat) ->
  0 < k_ s -> 0 < batch_size_ s ->
  k_ s' = k_ s -> p_ s' = p_ s -> temperature_ s' = temperature_ s ->
  batch_size_ s' = batch_size_ s ->
  k_ s = 1 \/ eqb (temperature_ s) zero = true ->
  TensorType logits_tensor = Value (batch_size_ s :: lrest) ->
  NumSignificantDims float logits_tensor <= 2 ->
  TensorType ids_tensor = Value (batch_size_ s :: irest) ->
  NumSignificantDims Z ids_tensor <= 1 ->
  match scores_tensor with
  | None => True
  | Some scores_t =>
      exists crest, TensorType scores_t = Value (batch_size_ s :: crest) /\
                    NumSignificantDims float scores_t <= 1
  end ->
  host_memory logits_tensor = true \/
  PackedSize logits_tensor
  = Value (sizeof_float * Z.of_nat (List.length (contents logits_tensor))) ->
  (0 < vocab)%nat ->
  List.length (contents logits_tensor)
  = (Z.to_nat (batch_size_ s) * vocab)%nat ->
  no_nan (contents logits_tensor) ->
  (exists out out',
     Sample s logits_tensor ids_tensor scores_tensor = Some out /\
     Sample s' logits_tensor ids_tensor scores_tensor = Some out' /\
     result out = OkStatus /\
     result out' = OkStatus /\
     ids_after out' = ids_after out /\
     (forall r, (r < Z.to_nat (batch_size_ s))%nat ->
        exists id,
          nth_error (contents (ids_after out)) r = Some id /\
          argmax (row_at vocab r (contents logits_tensor)) = Some id /\
          first_maximum (row_at vocab r (contents logits_tensor)) id)) /\
  (forall seed s0,
     Create (k_ s) (p_ s) (temperature_ s) (batch_size_ s) seed = Value s0 ->
     k_ s0 = k_ s /\ p_ s0 = p_ s /\ temperature_ s0 = temperature_ s /\
     batch_size_ s0 = batch_size_ s) /\
  argmax (map of_Z [0; 0; 10; 0]) = Some 2.
Proof.
  intros Hdraw Hk Hb Hk' Hp' Ht' Hb' Hgreedy Hl Hnl Hi Hni Hsc Hdata Hv
         Hlen Hnan.
  split; [|split; [|reflexivity]].
  2: { intros seed s0 Hs0. apply Create_inv in Hs0 as (_ & _ & ->).
       simpl. auto. }
  set (logits := contents logits_tensor) in *.
  set (Q := fun (row : list float) (id : Z) (_ : float) =>
              argmax row = Some id).
  assert (Hrows : forall r g0, (r < Z.to_nat (batch_size_ s))%nat ->
            exists id prob g',
              sample_row Generator expf draw (k_ s) (p_ s) (temperature_ s)
                         g0 (row_at vocab r logits)
              = (Some (id, prob), g') /\
              Q (row_at vocab r logits) id prob).
  { intros r g0 Hr.
    apply (sample_row_greedy Generator expf draw Hdraw); try lia; auto.
    now apply (row_at_nonempty vocab r logits
                 (Z.to_nat (batch_size_ s))). }
  destruct (TopKTopPSampling_each Generator expf draw Q logits (k_ s) (p_ s)
              (temperature_ s) (generator_ s) (batch_size_ s) vocab
              Hb Hv Hlen Hrows)
    as (ids & probs & g1 & Hrun & Hlen1 & Hlen2 & Hids).
  destruct (TopKTopPSampling_each Generator expf draw Q logits (k_ s) (p_ s)
              (temperature_ s) (generator_ s') (batch_size_ s) vocab
              Hb Hv Hlen Hrows)
    as (ids' & probs' & g1' & Hrun' & Hlen1' & Hlen2' & Hids').
  assert (Heq : ids' = ids).
  { apply nth_error_ext. intros r.
    destruct (Nat.lt_ge_cases r (Z.to_nat (batch_size_ s))) as [Hr|Hr].
    - destruct (Hids r Hr) as (id & prob & Hid & _ & HQ).
      destruct (Hids' r Hr) as (id' & prob' & Hid' & _ & HQ').
      unfold Q in HQ, HQ'. congruence.
    - rewrite (proj2 (nth_error_None ids r)) by lia.
      apply nth_error_None. lia. }
  subst ids'.
  destruct (logits_span_contents Generator s logits_tensor Hdata)
    as (cache & Hspan).
  destruct (logits_span_contents Generator s' logits_tensor Hdata)
    as (cache' & Hspan').
  eexists. eexists.
  split.
  { eapply (Sample_succeeds Generator NumSignificantDims logf
              TopKTopPSampling s); eauto. lia. }
  split.
  { apply (Sample_succeeds Generator NumSignificantDims logf
             TopKTopPSampling s' logits_tensor ids_tensor scores_tensor
             lrest irest logits cache' ids probs' g1');
      rewrite ?Hk', ?Hp', ?Ht', ?Hb'; try assumption. lia. }
  split; [reflexivity|]. split; [reflexivity|]. split; [reflexivity|].
  intros r Hr. destruct (Hids r Hr) as (id & prob & Hid & _ & HQ).
  exists id. split; [|split].
  - simpl. rewrite nth_error_overwrite by lia. exact Hid.
  - exact HQ.
  - apply argmax_first_maximum; [|exact HQ].
    now apply no_nan_row_at.
Qed.


End SamplerWithSampling.

Lemma draw_first_in_range (g : Instance.Generator)
    (weights : list Float32.float) :
  weights <> [] ->
  (fst (Instance.draw g weights) < List.length weights)%nat.
Proof.
  destruct weights; [congruence | simpl; lia].
Qed.

Lemma greedy_selection_for_k1_or_zero_temperature_witness :
  exists out out',
    Instance.SampleToIdAndScoreBuffer Instance.sampler
      (MoreInstance.device [2; 4] Instance.logits)
      (Instance.tensor [2] [0; 0]) None
    = Some out /\
    Instance.SampleToIdAndScoreBuffer MoreInstance.reused_sampler
      (MoreInstance.device [2; 4] Instance.logits)
      (Instance.tensor [2] [0; 0]) None
    = Some out' /\
    TopPCpuSampler.result out = absl.OkStatus /\
    TopPCpuSampler.result out' = absl.OkStatus /\
    Tensor.contents (TopPCpuSampler.ids_after out') = [2; 1] /\
    nth_error (Tensor.contents (TopPCpuSampler.ids_after out)) 0 = Some 2 /\
    nth_error (Tensor.contents (TopPCpuSampler.ids_after out)) 1 = Some 1.
Proof.
  destruct (greedy_selection_for_k1_or_zero_temperature
              Instance.Generator Instance.make_generator
              Instance.float_to_string Instance.NumSignificantDims
              Instance.logf Instance.expf Instance.draw
              Instance.sampler MoreInstance.reused_sampler
              (MoreInstance.device [2; 4] Instance.logits)
              (Instance.tensor [2] [0; 0]) None [4] [] 4%nat)
    as ((out & out' & Hrun & Hrun' & Hok & Hok' & Hsame & Hrows) & _).
  - exact draw_first_in_range.
  - reflexivity.
  - reflexivity.
  - reflexivity.
  - reflexivity.
  - reflexivity.
  - reflexivity.
  - left. reflexivity.
  - reflexivity.
  - vm_compute. discriminate.
  - reflexivity.
  - vm_compute. discriminate.
  - exact I.
  - right. reflexivity.
  - lia.
  - reflexivity.
  - repeat constructor.
  - exists out, out'. split; [exact Hrun|]. split; [exact Hrun'|].
    split; [exact Hok|]. split; [exact Hok'|]. split.
    + rewrite Hsame. vm_compute in Hrun. injection Hrun as <-. reflexivity.
    + split.
      * destruct (Hrows 0%nat) as (id & Hid & Harg & _); [simpl; lia|].
        vm_compute in Harg. injection Harg as <-. exact Hid.
      * destruct (Hrows 1%nat) as (id & Hid & Harg & _); [simpl; lia|].
        vm_compute in Harg. injection Harg as <-. exact Hid.
Defined.



(** ** The conversation history *)

Section HistoryProperties.
Import absl Conversation.

Variable Message : Type.

Local Abbreviation State := (State Message).
Local Abbreviation Event := (Event Message).

Lemma step_history_inv (base : list Message) acc (s s' : State) (e : Event) :
  history_inv base acc s -> step s e s' ->
  history_inv base (commit_event Message acc e) s'.
Proof.
  unfold history_inv. intros Hinv Hstep.
  destruct Hstep as [s input Hph | s input Hph | s input text frag Hph
                     | s | s input text code Hph Hc
                     | s input text response Hph Hm
                     | s m pending Hph | s Hph
                     | s thread Hm | s thread Hm | s thread Hm];
    simpl; try rewrite Hph in Hinv; try rewrite Hph; simpl.
  - destruct Hinv as (Hh & Hm). auto.
  - exact Hinv.
  - exact Hinv.
  - exact Hinv.
  - destruct Hinv as (Hh & Hm & _). auto.
  - destruct Hinv as (Hh & _ & Hacc). rewrite Hacc. simpl.
    split; [|reflexivity]. rewrite Hh, <- app_assoc. reflexivity.
  - destruct Hinv as (Hh & Hm). split; [|exact Hm].
    rewrite <- Hh, <- app_assoc. reflexivity.
  - destruct Hinv as (Hh & _). rewrite app_nil_r in Hh.
    split; [exact Hh | discriminate].
  - destruct (phase s) as [|input text|pending];
      [destruct Hinv as (Hh & _) | destruct Hinv as (Hh & _ & Hacc)
       | destruct Hinv as (_ & Hl); congruence];
      repeat split; auto; discriminate.
  - exact Hinv.
  - destruct (phase s) as [|input text|pending];
      [destruct Hinv as (Hh & _) | destruct Hinv as (Hh & _ & Hacc)
       | destruct Hinv as (_ & Hl); congruence];
      repeat split; auto; discriminate.
Qed.

Lemma exec_history_inv (base : list Message) (s s' : State)
    (evs : list Event) :
  exec s evs s' ->
  forall acc, history_inv base acc s ->
              history_inv base (fold_left (commit_event Message) evs acc) s'.
Proof.
  induction 1 as [s|s e s1 evs s' Hstep Hexec IH]; intros acc Hinv.
  - exact Hinv.
  - simpl. apply IH. eapply step_history_inv; eauto.
Qed.

Lemma initial_history_inv (base : list Message) :
  history_inv base (None, []) (initial base).
Proof.
  unfold history_inv. simpl. rewrite app_nil_r.
  split; [reflexivity | discriminate].
Qed.

Lemma exec_app_inv (pre post : list Event) :
  forall s s', exec s (pre ++ post) s' ->
               exists s1, exec s pre s1 /\ exec s1 post s'.
Proof.
  induction pre as [|e pre IH]; intros s s' H; simpl in H.
  - exists s. split; [constructor | exact H].
  - inversion H as [|? ? s1 ? ? Hstep Hexec]; subst.
    destruct (IH _ _ Hexec) as (s2 & Hpre & Hpost).
    exists s2. split; [econstructor; eauto | exact Hpost].
Qed.

Lemma committed_whole_turns (evs : list Event) :
  forall acc turns,
    snd acc = flat_map (fun t => [fst t; snd t]) turns ->
    exists turns',
      snd (fold_left (commit_event Message) evs acc)
      = flat_map (fun t : Message * Message => [fst t; snd t]) turns'.
Proof.
  induction evs as [|e evs IH]; intros acc turns Hacc; simpl.
  - eauto.
  - destruct e; simpl; try (eapply IH; eassumption).
    destruct (fst acc) as [input|]; [|eapply IH; eassumption].
    apply (IH _ (turns ++ [(input, response)])%list). simpl.
    rewrite flat_map_app, Hacc. reflexivity.
Qed.

(** While no new turn starts, a state that is generating comes from a
    state that was generating, with the same history. *)
Lemma generating_keeps_history (s s' : State) (evs : list Event) :
  exec s evs s' ->
  (forall m, ~ In (SendMessage m) evs) ->
  forall input text, phase s' = Generating input text ->
  (exists text0, phase s = Generating input text0) /\
  history_ s' = history_ s.
Proof.
  induction 1 as [s|s e s1 evs s' Hstep Hexec IH]; intros Hno input text Hph.
  - eauto.
  - destruct (IH (fun m Hin => Hno m (or_intror Hin)) input text Hph)
      as ((text0 & Hph1) & Hh).
    rewrite Hh.
    destruct Hstep; simpl in *; try discriminate; eauto.
    + exfalso. apply (Hno input0). now left.
    + injection Hph1 as -> _. eauto.
Qed.

Lemma no_commit_keeps_history (s s' : State) (evs : list Event) :
  exec s evs s' ->
  forallb (fun e => negb (is_commit e)) evs = true ->
  history_ s' = history_ s.
Proof.
  induction 1 as [s|s e s1 evs s' Hstep Hexec IH]; intros Hno;
    [reflexivity|].
  simpl in Hno. apply andb_true_iff in Hno as (He & Hno).
  rewrite (IH Hno).
  destruct Hstep; simpl in *; try reflexivity; discriminate.
Qed.

(** C6: the history is mutated only by the end-of-turn commit, which is
    all-or-nothing: a turn that aborts, is cancelled or fails leaves the
    history as it was before the turn, and no observer ([GetHistory],
    [AccessHistory]) ever sees a partially appended turn. *)
Theorem history_commit_is_all_or_nothing
    (base : list Message) (evs : list Event) (s : State) :
  exec (initial base) evs s ->
  (in_commit s = false -> history_ s = (base ++ committed evs)%list) /\
  (forall pre thread seen post,
     evs = (pre ++ Observe thread seen :: post)%list ->
     seen = (base ++ committed pre)%list /\ whole_turns base seen) /\
  (forall pre input mid code post,
     evs = (pre ++ SendMessage input :: mid ++ Aborted code :: post)%list ->
     (forall m, ~ In (SendMessage m) mid) ->
     exists s1 s2,
       exec (initial base) pre s1 /\
       exec s1 (SendMessage input :: mid ++ [Aborted code]) s2 /\
       history_ s2 = history_ s1) /\
  (forallb (fun e => negb (is_commit e)) evs = true -> history_ s = base).
Proof.
  intros Hexec. split; [|split; [|split]].
  - intros Hph.
    pose proof (exec_history_inv base _ _ _ Hexec _
                  (initial_history_inv base)) as Hinv.
    unfold history_inv in Hinv. unfold in_commit in Hph.
    unfold committed.
    destruct (phase s); [apply Hinv | apply Hinv | discriminate].
  - intros pre thread seen post ->.
    apply exec_app_inv in Hexec as (s1 & Hpre & Hpost).
    inversion Hpost as [|? ? s2 ? ? Hstep _]; subst.
    inversion Hstep as [| | | | | | | | |? ? Hm|]; subst.
    pose proof (exec_history_inv base _ _ _ Hpre _
                  (initial_history_inv base)) as Hinv.
    unfold history_inv in Hinv.
    assert (Hseen : history_ s2 = (base ++ committed pre)%list).
    { unfold committed.
      destruct (phase s2); [apply Hinv | apply Hinv|].
      destruct Hinv as (_ & Hl). congruence. }
    split; [exact Hseen|]. rewrite Hseen. unfold whole_turns, committed.
    destruct (committed_whole_turns pre (None, []) []) as (turns & ->);
      [reflexivity|].
    eauto.
  - intros pre input mid code post -> Hno.
    apply exec_app_inv in Hexec as (s1 & Hpre & Hpost).
    inversion Hpost as [|? ? sa ? ? Hsend Hrest]; subst.
    apply exec_app_inv in Hrest as (sb & Hmid & Hend).
    inversion Hend as [|? ? s2 ? ? Habort _]; subst.
    exists s1, s2. split; [exact Hpre|]. split.
    + econstructor; [exact Hsend|].
      clear - Hmid Habort.
      induction Hmid as [s0|s0 e s3 evs s4 Hstep Hexec IH].
      * econstructor; [exact Habort | constructor].
      * econstructor; [exact Hstep | now apply IH].
    + inversion Habort as [| | | |? ? text ? Hph _| | | | | |]; subst.
      destruct (generating_keeps_history _ _ _ Hmid Hno _ _ Hph)
        as (_ & Hh).
      simpl. rewrite Hh.
      inversion Hsend; subst. reflexivity.
  - intros Hno. apply (no_commit_keeps_history _ _ _ Hexec Hno).
Qed.

End HistoryProperties.

Lemma history_commit_is_all_or_nothing_witness :
  exists s : Conversation.State string,
    Conversation.exec (Conversation.initial ["system"])
      [Conversation.SendMessage "hello";
       Conversation.Fragment "Hi";
       Conversation.Lock 1;
       Conversation.Observe 1 ["system"];
       Conversation.Unlock 1;
       Conversation.CommitBegin "Hi there";
       Conversation.Append "hello";
       Conversation.Append "Hi there";
       Conversation.CommitEnd;
       Conversation.SendMessage "more";
       Conversation.Fragment "So";
       Conversation.CancelProcess;
       Conversation.Aborted absl.kCancelled;
       Conversation.Lock 2;
       Conversation.Observe 2 ["system"; "hello"; "Hi there"];
       Conversation.Unlock 2] s /\
    Conversation.history_ s = ["system"; "hello"; "Hi there"].
Proof.
  eexists. split.
  - repeat (eapply Conversation.exec_cons;
            [econstructor; simpl; try reflexivity; try discriminate|]);
      try apply Conversation.exec_nil.
  - match goal with
    | |- Conversation.history_ ?s = _ =>
        assert (He : Conversation.exec (Conversation.initial ["system"])
                  [Conversation.SendMessage "hello";
                   Conversation.Fragment "Hi";
                   Conversation.Lock 1;
                   Conversation.Observe 1 ["system"];
                   Conversation.Unlock 1;
                   Conversation.CommitBegin "Hi there";
                   Conversation.Append "hello";
                   Conversation.Append "Hi there";
                   Conversation.CommitEnd;
                   Conversation.SendMessage "more";
                   Conversation.Fragment "So";
                   Conversation.CancelProcess;
                   Conversation.Aborted absl.kCancelled;
                   Conversation.Lock 2;
                   Conversation.Observe 2 ["system"; "hello"; "Hi there"];
                   Conversation.Unlock 2] s)
    end.
    { repeat (eapply Conversation.exec_cons;
              [econstructor; simpl; try reflexivity; try discriminate|]);
        try apply Conversation.exec_nil. }
    destruct (history_commit_is_all_or_nothing string _ _ _ He) as (H & _).
    rewrite H; reflexivity.
Defined.

(** ** The Kotlin Message and the wire shape *)

Section MessageProperties.
Import absl Json Kotlin OpenAiApi.

Variable Base64_encode : list Byte.byte -> string.
Variable Base64_decode : string -> option (list Byte.byte).

Local Abbreviation Message_toJson := (Message_toJson Base64_encode).
Local Abbreviation Message_fromJson := (Message_fromJson Base64_decode).

(** C8, as the code has it: [Message.of] on an empty list returns a
    [Message] whose contents are empty; the emptiness check sits in the
    member function [init()], which no construction path calls, and which
    would have thrown on this message.  The two other overloads always
    build a non-empty message. *)
Theorem Message_of_empty_list_is_accepted :
  Message_of_contents [] = Returned {| contents := [] |} /\
  Message_init {| contents := [] |}
  = Thrown "IllegalStateException" "Contents should not be empty." /\
  (forall text, exists m,
     Message_of_text text = Returned m /\ contents m = [Text text]) /\
  (forall content, exists m,
     Message_of_content content = Returned m /\ contents m = [content]) /\
  (forall cs, exists m,
     Message_of_contents cs = Returned m /\ contents m = cs).
Proof.
  repeat split; intros; eexists; split; reflexivity.
Qed.

(** C9, as the code has it: a [Message] with one text part serializes to
    the content array [[{"type":"text","text":text}]] of the wire shape,
    without a role field, since a [Message] has no role; reading the array
    back gives the same message; and once the array is the content of a
    wire-shape object with a role, [ConvertToLiteRtJsonMessage] accepts the
    object and returns it with the same role and content. *)
Theorem text_message_round_trip (text role : string) :
  let m := {| contents := [Text text] |} in
  let wire := JObject [("content", Message_toJson m);
                       ("role", JString role)] in
  Message_of_text text = Returned m /\
  Message_toJson m
  = JArray [JObject [("text", JString text); ("type", JString "text")]] /\
  member "role" (Message_toJson m) = None /\
  is_wire_message (Message_toJson m) = false /\
  Message_fromJson (Message_toJson m) = Some m /\
  is_wire_message wire = true /\
  ConvertToLiteRtJsonMessage (JArray [wire]) = Returned (Value wire).
Proof.
  repeat split.
Qed.

End MessageProperties.

(** The serialized form of a text message is an array, not an object with
    a role: it is not the message wire shape. *)
Lemma Message_toJson_is_not_a_wire_message :
  Json.is_wire_message
    (Kotlin.Message_toJson Instance.Base64_encode
       {| Kotlin.contents := [Kotlin.Text "Hello"] |}) = false /\
  Json.member "role"
    (Kotlin.Message_toJson Instance.Base64_encode
       {| Kotlin.contents := [Kotlin.Text "Hello"] |}) = None.
Proof.
  split; reflexivity.
Qed.

(* ================================================================== *)
(** * Part III: further properties of the code                         *)
(* ================================================================== *)

(** ** More on TopPSampler *)

Section SamplerMore.
Import absl Float32 Tensor TopPCpuSampler.

Variable Generator : Type.
Variable make_generator : Z -> Generator.
Variable float_to_string : float -> string.
Variable NumSignificantDims : forall A, TensorBuffer A -> Z.
Variable logf : float -> float.
Variable TopKTopPSampling :
  list float -> Z -> float -> float -> Generator -> Z ->
  StatusOr (list Z) * list float * Generator.

Local Abbreviation Create :=
  (Create Generator make_generator float_to_string).
Local Abbreviation Validate := (ValidateTensor NumSignificantDims).
Local Abbreviation Sample :=
  (SampleToIdAndScoreBuffer Generator NumSignificantDims logf
     TopKTopPSampling).

Lemma ltb_false_leb (a b : float) :
  is_nan a = false -> is_nan b = false -> ltb a b = false -> leb b a = true.
Proof.
  unfold ltb, leb, SFltb, SFleb. rewrite (SFcompare_antisym a b).
  destruct a, b; try discriminate; intros _ _;
    destruct (SFcompare _ _) as [[]|] eqn:Hc; simpl; try congruence;
    try (simpl in Hc; repeat match type of Hc with
                             | context [if ?s then _ else _] => destruct s
                             end; discriminate).
Qed.

Lemma ltb_nan_l (a : float) : ltb nan a = false.
Proof. reflexivity. Qed.

Lemma ltb_nan_r (a : float) : ltb a nan = false.
Proof. destruct a; reflexivity. Qed.

(** [Create] succeeds exactly when k and batch_size are positive, p is in
    [0, 1] or NaN, and the temperature is at least 0 or NaN: the
    comparisons that guard p and the temperature are false on a NaN, which
    is therefore accepted. *)
Theorem Create_succeeds_iff
    (k : Z) (p temperature : float) (batch_size seed : Z) :
  (exists s, Create k p temperature batch_size seed = Value s) <->
  (0 < k /\ 0 < batch_size /\
   (is_nan p = true \/ (leb zero p = true /\ leb p one = true)) /\
   (is_nan temperature = true \/ leb zero temperature = true)).
Proof.
  unfold TopPCpuSampler.Create. split.
  - intros (s & Hs).
    destruct (Z.leb_spec k 0); [discriminate|].
    destruct (ltb p zero) eqn:Hp0; [discriminate|].
    destruct (ltb one p) eqn:Hp1; [discriminate|].
    destruct (Z.leb_spec batch_size 0); [discriminate|].
    destruct (ltb temperature zero) eqn:Ht; [discriminate|].
    repeat split; try lia.
    + destruct (is_nan p) eqn:Hn; [now left|right].
      split; apply ltb_false_leb; auto.
    + destruct (is_nan temperature) eqn:Hn; [now left|right].
      apply ltb_false_leb; auto.
  - intros (Hk & Hb & Hp & Ht).
    destruct (Z.leb_spec k 0); [lia|].
    destruct (Z.leb_spec batch_size 0); [lia|].
    assert (Hp0 : ltb p zero = false /\ ltb one p = false).
    { destruct Hp as [Hn|[Hlo Hhi]].
      - destruct p; try discriminate. split; reflexivity.
      - split; now apply leb_not_gt. }
    destruct Hp0 as [-> ->].
    assert (Ht0 : ltb temperature zero = false).
    { destruct Ht as [Hn|Hlo].
      - destruct temperature; try discriminate. reflexivity.
      - now apply leb_not_gt. }
    rewrite Ht0. simpl. eauto.
Qed.

(** [ValidateTensor] compares the number of significant dimensions before
    it reads [dims[0]]: a tensor with too many significant dimensions gets
    the dimension error whatever its batch dimension, and the only case in
    which [dims[0]] is read out of range is a tensor without dimensions
    that passes the first check. *)
Theorem ValidateTensor_checks_dimensions_first
    {A} (t : TensorBuffer A) (max_num_dims b : Z) (name : string)
    (dims : list Z) :
  TensorType t = Value dims ->
  (max_num_dims < NumSignificantDims A t ->
   Validate t max_num_dims b name
   = Some (InvalidArgumentError
             ("The output " ++ name ++ " tensor must have <="
              ++ StrCat_int max_num_dims
              ++ " significant dimension, but got "
              ++ StrCat_int (NumSignificantDims A t)))) /\
  (Validate t max_num_dims b name = None <->
   dims = [] /\ NumSignificantDims A t <= max_num_dims).
Proof.
  intros Ht. unfold TopPCpuSampler.ValidateTensor. rewrite Ht.
  destruct (Z.gtb_spec (NumSignificantDims A t) max_num_dims) as [Hgt|Hle].
  - split; [reflexivity|]. split; [discriminate | lia].
  - split; [lia|].
    destruct dims as [|d0 rest]; simpl.
    + split; auto.
    + destruct (d0 =? b); simpl; split; try discriminate;
        intros [? _]; discriminate.
Qed.

Lemma ValidateTensor_failed {A} (t : TensorBuffer A) (max_num_dims b : Z)
    (name : string) (c : StatusCode) (m : string) :
  TensorType t = Failed c m ->
  Validate t max_num_dims b name = Some (Error c m).
Proof.
  intros Ht. unfold TopPCpuSampler.ValidateTensor. now rewrite Ht.
Qed.

(** A call never changes the configuration of the sampler: whatever the
    tensors and whatever the outcome, [k_], [p_], [temperature_] and
    [batch_size_] are afterwards what they were; only the generator and
    the downloaded logits can differ. *)
Theorem SampleToIdAndScoreBuffer_keeps_configuration
    (s : TopPSampler Generator)
    (logits_tensor : TensorBuffer float) (ids_tensor : TensorBuffer Z)
    (scores_tensor : option (TensorBuffer float))
    (out : Outcome Generator) :
  Sample s logits_tensor ids_tensor scores_tensor = Some out ->
  k_ (sampler_after out) = k_ s /\
  p_ (sampler_after out) = p_ s /\
  temperature_ (sampler_after out) = temperature_ s /\
  batch_size_ (sampler_after out) = batch_size_ s.
Proof.
  unfold SampleToIdAndScoreBuffer, bind.
  repeat match goal with
         | |- context [match ?x with _ => _ end] =>
             lazymatch x with
             | context [match _ with _ => _ end] => fail
             | _ => destruct x eqn:?
             end
         | |- context [if ?x then _ else _] =>
             lazymatch x with
             | context [match _ with _ => _ end] => fail
             | _ => destruct x eqn:?
             end
         end;
    try discriminate; intros [= <-]; simpl; auto.
Qed.

(** A failure met before the sampling is returned as it is and leaves the
    sampler and both output tensors untouched: a failing [TensorType()] of
    the logits tensor, a failing [TensorType()] of the ids tensor, and a
    failing [PackedSize()] of logits that are not in host memory. *)
Theorem failure_before_sampling_changes_nothing
    (s : TopPSampler Generator)
    (logits_tensor : TensorBuffer float) (ids_tensor : TensorBuffer Z)
    (scores_tensor : option (TensorBuffer float))
    (c : StatusCode) (m : string) (lrest irest : list Z) :
  let unchanged :=
    Some {| result := Error c m; sampler_after := s;
            ids_after := ids_tensor; scores_after := scores_tensor |} in
  (TensorType logits_tensor = Failed c m ->
   Sample s logits_tensor ids_tensor scores_tensor = unchanged) /\
  (TensorType logits_tensor = Value (batch_size_ s :: lrest) ->
   NumSignificantDims float logits_tensor <= 2 ->
   TensorType ids_tensor = Failed c m ->
   Sample s logits_tensor ids_tensor scores_tensor = unchanged) /\
  (TensorType logits_tensor = Value (batch_size_ s :: lrest) ->
   NumSignificantDims float logits_tensor <= 2 ->
   TensorType ids_tensor = Value (batch_size_ s :: irest) ->
   NumSignificantDims Z ids_tensor <= 1 ->
   host_memory logits_tensor = false ->
   PackedSize logits_tensor = Failed c m ->
   Sample s logits_tensor ids_tensor scores_tensor = unchanged).
Proof.
  cbv zeta. unfold SampleToIdAndScoreBuffer. repeat split.
  - intros Hl. rewrite (ValidateTensor_failed _ _ _ _ _ _ Hl). reflexivity.
  - intros Hl Hnl Hi.
    rewrite (ValidateTensor_accepts NumSignificantDims logits_tensor 2
               (batch_size_ s) "input logits" lrest Hl Hnl). simpl.
    rewrite (ValidateTensor_failed _ _ _ _ _ _ Hi). reflexivity.
  - intros Hl Hnl Hi Hni Hhost Hsize.
    rewrite (ValidateTensor_accepts NumSignificantDims logits_tensor 2
               (batch_size_ s) "input logits" lrest Hl Hnl). simpl.
    rewrite (ValidateTensor_accepts NumSignificantDims ids_tensor 1
               (batch_size_ s) "output ids" irest Hi Hni). simpl.
    unfold logits_span. rewrite Hhost, Hsize. reflexivity.
Qed.

(** When [TopKTopPSampling] fails, its status is returned and neither
    output tensor is written, but the sampler keeps the generator the
    failed sampling left behind. *)
Theorem sampling_failure_is_returned
    (s : TopPSampler Generator)
    (logits_tensor : TensorBuffer float) (ids_tensor : TensorBuffer Z)
    (scores_tensor : option (TensorBuffer float))
    (lrest irest : list Z) (logits_data cache : list float)
    (c : StatusCode) (m : string) (sampled_scores : list float)
    (g : Generator) :
  TensorType logits_tensor = Value (batch_size_ s :: lrest) ->
  NumSignificantDims float logits_tensor <= 2 ->
  TensorType ids_tensor = Value (batch_size_ s :: irest) ->
  NumSignificantDims Z ids_tensor <= 1 ->
  logits_span Generator s logits_tensor = Value (logits_data, cache) ->
  TopKTopPSampling logits_data (k_ s) (p_ s) (temperature_ s)
                   (generator_ s) (batch_size_ s)
  = (Failed c m, sampled_scores, g) ->
  Sample s logits_tensor ids_tensor scores_tensor
  = Some {| result := Error c m;
            sampler_after := with_state Generator s g cache;
            ids_after := ids_tensor;
            scores_after := scores_tensor |}.
Proof.
  intros Hl Hnl Hi Hni Hspan Hsample. unfold SampleToIdAndScoreBuffer.
  rewrite (ValidateTensor_accepts NumSignificantDims logits_tensor 2
             (batch_size_ s) "input logits" lrest Hl Hnl). simpl.
  rewrite (ValidateTensor_accepts NumSignificantDims ids_tensor 1
             (batch_size_ s) "output ids" irest Hi Hni). simpl.
  rewrite Hspan, Hsample. reflexivity.
Qed.

(** On well-shaped tensors and a successful sampling the call returns OK:
    the ids tensor receives the sampled ids, and a supplied scores tensor
    receives the logarithms of the first [batch_size_] sampled scores;
    without a scores tensor nothing else is written. *)
Theorem successful_call_writes_ids_and_log_scores
    (s : TopPSampler Generator)
    (logits_tensor : TensorBuffer float) (ids_tensor : TensorBuffer Z)
    (scores_tensor : option (TensorBuffer float))
    (lrest irest : list Z) (logits_data cache : list float)
    (ids : list Z) (sampled_scores : list float) (g : Generator) :
  TensorType logits_tensor = Value (batch_size_ s :: lrest) ->
  NumSignificantDims float logits_tensor <= 2 ->
  TensorType ids_tensor = Value (batch_size_ s :: irest) ->
  NumSignificantDims Z ids_tensor <= 1 ->
  match scores_tensor with
  | None => True
  | Some scores_t =>
      exists crest, TensorType scores_t = Value (batch_size_ s :: crest) /\
                    NumSignificantDims float scores_t <= 1
  end ->
  logits_span Generator s logits_tensor = Value (logits_data, cache) ->
  TopKTopPSampling logits_data (k_ s) (p_ s) (temperature_ s)
                   (generator_ s) (batch_size_ s)
  = (Value ids, sampled_scores, g) ->
  (Z.to_nat (batch_size_ s) <= List.length sampled_scores)%nat ->
  Sample s logits_tensor ids_tensor scores_tensor
  = Some {| result := OkStatus;
            sampler_after := with_state Generator s g cache;
            ids_after := Write ids_tensor ids;
            scores_after :=
              option_map
                (fun scores_t =>
                   Write scores_t
                     (map logf (firstn (Z.to_nat (batch_size_ s))
                                       sampled_scores)))
                scores_tensor |}.
Proof.
  intros Hl Hnl Hi Hni Hsc Hspan Hsample Hlen.
  unfold SampleToIdAndScoreBuffer.
  rewrite (ValidateTensor_accepts NumSignificantDims logits_tensor 2
             (batch_size_ s) "input logits" lrest Hl Hnl). simpl.
  rewrite (ValidateTensor_accepts NumSignificantDims ids_tensor 1
             (batch_size_ s) "output ids" irest Hi Hni). simpl.
  rewrite Hspan, Hsample.
  destruct scores_tensor as [scores_t|]; [|reflexivity].
  destruct Hsc as (crest & Hc & Hnc).
  rewrite (ValidateTensor_accepts NumSignificantDims scores_t 1
             (batch_size_ s) "output scores" crest Hc Hnc). simpl.
  rewrite log_scores_firstn by lia. reflexivity.
Qed.

Lemma log_scores_short (sampled_scores : list float) :
  forall n a,
    (a <= List.length sampled_scores < a + n)%nat ->
    log_scores logf sampled_scores (seq a n) = None.
Proof.
  induction n as [|n IH]; intros a Hlen; [lia|]. simpl.
  destruct (nth_error sampled_scores a) as [x|] eqn:Hx; [|reflexivity].
  simpl. rewrite IH; [reflexivity|].
  assert (a < List.length sampled_scores)%nat
    by (apply nth_error_Some; congruence).
  lia.
Qed.

(** The loop over the scores trusts [TopKTopPSampling] to return at least
    [batch_size_] scores: when it returns fewer and a well-shaped scores
    tensor is supplied, [sampled_scores[i]] is read out of range, which is
    undefined behaviour. *)
Theorem too_few_sampled_scores_is_undefined
    (s : TopPSampler Generator)
    (logits_tensor : TensorBuffer float) (ids_tensor : TensorBuffer Z)
    (scores_tensor : TensorBuffer float)
    (lrest irest crest : list Z) (logits_data cache : list float)
    (ids : list Z) (sampled_scores : list float) (g : Generator) :
  TensorType logits_tensor = Value (batch_size_ s :: lrest) ->
  NumSignificantDims float logits_tensor <= 2 ->
  TensorType ids_tensor = Value (batch_size_ s :: irest) ->
  NumSignificantDims Z ids_tensor <= 1 ->
  TensorType scores_tensor = Value (batch_size_ s :: crest) ->
  NumSignificantDims float scores_tensor <= 1 ->
  logits_span Generator s logits_tensor = Value (logits_data, cache) ->
  TopKTopPSampling logits_data (k_ s) (p_ s) (temperature_ s)
                   (generator_ s) (batch_size_ s)
  = (Value ids, sampled_scores, g) ->
  (List.length sampled_scores < Z.to_nat (batch_size_ s))%nat ->
  Sample s logits_tensor ids_tensor (Some scores_tensor) = None.
Proof.
  intros Hl Hnl Hi Hni Hc Hnc Hspan Hsample Hshort.
  unfold SampleToIdAndScoreBuffer.
  rewrite (ValidateTensor_accepts NumSignificantDims logits_tensor 2
             (batch_size_ s) "input logits" lrest Hl Hnl). simpl.
  rewrite (ValidateTensor_accepts NumSignificantDims ids_tensor 1
             (batch_size_ s) "output ids" irest Hi Hni). simpl.
  rewrite Hspan, Hsample.
  rewrite (ValidateTensor_accepts NumSignificantDims scores_tensor 1
             (batch_size_ s) "output scores" crest Hc Hnc). simpl.
  rewrite log_scores_short by lia. reflexivity.
Qed.

(** A scores tensor is only looked at after the ids are written: when its
    shape is wrong the error names the output scores tensor with the sizes,
    and when its [TensorType()] fails that failure is returned; in both
    cases the ids tensor already holds the sampled ids. *)
Theorem scores_tensor_errors_name_the_scores_tensor
    (s : TopPSampler Generator)
    (logits_tensor : TensorBuffer float) (ids_tensor : TensorBuffer Z)
    (scores_tensor : TensorBuffer float)
    (lrest irest : list Z) (logits_data cache : list float)
    (ids : list Z) (sampled_scores : list float) (g : Generator) :
  TensorType logits_tensor = Value (batch_size_ s :: lrest) ->
  NumSignificantDims float logits_tensor <= 2 ->
  TensorType ids_tensor = Value (batch_size_ s :: irest) ->
  NumSignificantDims Z ids_tensor <= 1 ->
  logits_span Generator s logits_tensor = Value (logits_data, cache) ->
  TopKTopPSampling logits_data (k_ s) (p_ s) (temperature_ s)
                   (generator_ s) (batch_size_ s)
  = (Value ids, sampled_scores, g) ->
  let after st :=
    Some {| result := st;
            sampler_after := with_state Generator s g cache;
            ids_after := Write ids_tensor ids;
            scores_after := Some scores_tensor |} in
  (forall dims, TensorType scores_tensor = Value dims ->
     1 < NumSignificantDims float scores_tensor ->
     Sample s logits_tensor ids_tensor (Some scores_tensor)
     = after (InvalidArgumentError
                ("The output output scores tensor must have <=1"
                 ++ " significant dimension, but got "
                 ++ StrCat_int (NumSignificantDims float scores_tensor)))) /\
  (forall c0 crest, TensorType scores_tensor = Value (c0 :: crest) ->
     NumSignificantDims float scores_tensor <= 1 -> c0 <> batch_size_ s ->
     Sample s logits_tensor ids_tensor (Some scores_tensor)
     = after (InvalidArgumentError
                ("The output output scores tensor must have the same batch"
                 ++ " size as the input logits tensor, but got "
                 ++ StrCat_int c0 ++ " vs " ++ StrCat_int (batch_size_ s)))) /\
  (forall c m, TensorType scores_tensor = Failed c m ->
     Sample s logits_tensor ids_tensor (Some scores_tensor)
     = after (Error c m)).
Proof.
  intros Hl Hnl Hi Hni Hspan Hsample after.
  assert (Hrun : forall st,
            Validate scores_tensor 1 (batch_size_ s) "output scores"
            = Some st -> ok st = false ->
            Sample s logits_tensor ids_tensor (Some scores_tensor)
            = after st).
  { intros st Hv Hok. unfold SampleToIdAndScoreBuffer.
    rewrite (ValidateTensor_accepts NumSignificantDims logits_tensor 2
               (batch_size_ s) "input logits" lrest Hl Hnl). simpl.
    rewrite (ValidateTensor_accepts NumSignificantDims ids_tensor 1
               (batch_size_ s) "output ids" irest Hi Hni). simpl.
    rewrite Hspan, Hsample, Hv. simpl. now rewrite Hok. }
  repeat split.
  - intros dims Hc Hn. apply Hrun; [|reflexivity].
    unfold TopPCpuSampler.ValidateTensor. rewrite Hc.
    destruct (Z.gtb_spec (NumSignificantDims float scores_tensor) 1);
      [reflexivity | lia].
  - intros c0 crest Hc Hn Hne. apply Hrun; [|reflexivity].
    unfold TopPCpuSampler.ValidateTensor. rewrite Hc.
    destruct (Z.gtb_spec (NumSignificantDims float scores_tensor) 1);
      [lia|].
    simpl. destruct (Z.eqb_spec c0 (batch_size_ s)); [congruence|].
    reflexivity.
  - intros c m Hc. apply Hrun; [|reflexivity].
    now apply ValidateTensor_failed.
Qed.

(** The scratch buffer [logits_data_]: logits in host memory are used in
    place and the buffer is left alone; logits that have to be downloaded
    go through the buffer, which afterwards holds [PackedSize / 4] floats
    and is what the sampling reads. *)
Theorem logits_buffer_follows_packed_size
    (s : TopPSampler Generator) (logits_tensor : TensorBuffer float)
    (logits_size : Z) :
  (host_memory logits_tensor = true ->
   logits_span Generator s logits_tensor
   = Value (contents logits_tensor, logits_data_ s)) /\
  (host_memory logits_tensor = false ->
   PackedSize logits_tensor = Value logits_size ->
   exists buffer,
     logits_span Generator s logits_tensor = Value (buffer, buffer) /\
     List.length buffer = Z.to_nat (logits_size / sizeof_float)).
Proof.
  unfold logits_span. split.
  - intros ->. reflexivity.
  - intros -> ->. eexists. split; [reflexivity|].
    unfold Read, overwrite.
    set (n := logits_size / sizeof_float).
    set (buffer := if Z.of_nat (List.length (logits_data_ s)) =? n
                   then logits_data_ s else repeat zero (Z.to_nat n)).
    assert (Hlen : List.length buffer = Z.to_nat n).
    { unfold buffer.
      destruct (Z.eqb_spec (Z.of_nat (List.length (logits_data_ s))) n);
        [lia | apply repeat_length]. }
    rewrite length_app, length_skipn, !length_firstn. lia.
Qed.

End SamplerMore.

(** ** More on StripQuotes *)

Section QuotesMore.
Import ParserCommon Props.

Lemma string_length_append (a b : string) :
  String.length (a ++ b) = (String.length a + String.length b)%nat.
Proof. induction a as [|c a IH]; simpl; congruence. Qed.

Lemma append_char_inj (a b : string) (c : ascii) :
  a ++ String c EmptyString = b ++ String c EmptyString -> a = b.
Proof.
  revert b. induction a as [|x a IH]; intros [|y b] H; simpl in H.
  - reflexivity.
  - injection H as _ H. destruct b; discriminate.
  - injection H as _ H. destruct a; discriminate.
  - injection H as <- H. f_equal. now apply IH.
Qed.

Lemma get_last_append (inner : string) (q : ascii) :
  String.get (String.length inner) (inner ++ String q EmptyString) = Some q.
Proof. induction inner as [|c inner IH]; [reflexivity | exact IH]. Qed.

(** [StripQuotes] removes exactly two characters when it strips and none
    otherwise, so it returns its argument unchanged exactly when the text
    is not enclosed in matching quotes; one layer of quotes is removed,
    whatever the text between them. *)
Theorem StripQuotes_shortens_by_two_iff_quoted (text : string) :
  (quoted text ->
   String.length (StripQuotes text) = (String.length text - 2)%nat) /\
  (StripQuotes text = text <-> ~ quoted text) /\
  (forall q inner,
     q = squote \/ q = dquote ->
     text = String q (inner ++ String q EmptyString) ->
     StripQuotes text = inner).
Proof.
  assert (Hlen : quoted text ->
            String.length (StripQuotes text) = (String.length text - 2)%nat).
  { intros Hq. destruct (StripQuotes_quoted text Hq) as (_ & q & _ & Ht).
    rewrite Ht at 2. cbn [String.length].
    rewrite string_length_append. cbn [String.length]. lia. }
  split; [exact Hlen|]. split; [split|].
  - intros Heq Hq. pose proof (Hlen Hq) as Hl. rewrite Heq in Hl.
    destruct Hq as (Hge & _). lia.
  - apply StripQuotes_unquoted.
  - intros q inner Hq Ht.
    assert (Hquoted : quoted text).
    { subst text. split.
      - cbn [String.length]. rewrite string_length_append.
        cbn [String.length]. lia.
      - exists q. split; [reflexivity|]. split; [|exact Hq].
        cbn [String.length]. rewrite string_length_append.
        cbn [String.length].
        replace (S (String.length inner + 1) - 1)%nat
          with (S (String.length inner)) by lia.
        cbn [String.get]. apply get_last_append. }
    destruct (StripQuotes_quoted text Hquoted) as (_ & q' & _ & Ht').
    rewrite Ht' in Ht. injection Ht as -> Happ.
    now apply append_char_inj in Happ.
Qed.

End QuotesMore.

(** ** More on the Kotlin Message *)

Section MessageMore.
Import absl Json Kotlin OpenAiApi MoreProps.

Variable Base64_encode : list Byte.byte -> string.

Local Abbreviation Content_toJson := (Content_toJson Base64_encode).
Local Abbreviation Message_toJson := (Message_toJson Base64_encode).

Lemma Content_toJson_is_content_part (c : Content) :
  is_content_part (Content_toJson c) = true.
Proof. destruct c; reflexivity. Qed.

(** Every [Message], whatever its contents, serializes to an array with
    one well-formed content part of the wire shape per content, so that
    the array under a role is a well-formed wire message. *)
Theorem Message_toJson_is_wire_content (m : Message) (role : string) :
  exists parts,
    Message_toJson m = JArray parts /\
    List.length parts = List.length (contents m) /\
    forallb is_content_part parts = true /\
    is_wire_message (JObject [("content", Message_toJson m);
                              ("role", JString role)]) = true.
Proof.
  assert (H : forallb is_content_part (map Content_toJson (contents m))
              = true).
  { apply forallb_forall. intros j Hj. apply in_map_iff in Hj as (c & <- & _).
    apply Content_toJson_is_content_part. }
  exists (map Content_toJson (contents m)). repeat split.
  - apply length_map.
  - exact H.
  - exact H.
Qed.

Lemma Content_toJson_injective (c1 c2 : Content) :
  (forall b1 b2, Base64_encode b1 = Base64_encode b2 -> b1 = b2) ->
  Content_toJson c1 = Content_toJson c2 -> c1 = c2.
Proof.
  intros Hinj. destruct c1, c2; cbn; intros H; try discriminate;
    injection H as H; try (f_equal; auto); congruence.
Qed.

(** Serialization loses nothing: as long as the Base64 encoding is
    injective, two messages with the same JSON are the same message; text,
    inline bytes and file paths of images and of audio all stay apart. *)
Theorem Message_toJson_injective (m1 m2 : Message) :
  (forall b1 b2, Base64_encode b1 = Base64_encode b2 -> b1 = b2) ->
  Message_toJson m1 = Message_toJson m2 -> m1 = m2.
Proof.
  intros Hinj. destruct m1 as [cs1], m2 as [cs2].
  unfold Kotlin.Message_toJson. simpl. intros [= H]. f_equal.
  revert cs2 H. induction cs1 as [|c1 cs1 IH]; intros [|c2 cs2] H;
    simpl in H; try discriminate; [reflexivity|].
  injection H as Hc Hcs. f_equal.
  - now apply Content_toJson_injective.
  - now apply IH.
Qed.

End MessageMore.

(** ** ConvertToLiteRtJsonMessage *)

Section ConvertProperties.
Import absl Json Kotlin OpenAiApi MoreProps.

Lemma convert_parts_cons (item : Json) (rest acc : list Json) :
  convert_parts (item :: rest) acc
  = match converted_item item with
    | Returned (Some p) => convert_parts rest (acc ++ [p])%list
    | Returned None => convert_parts rest acc
    | Thrown e m => Thrown e m
    end.
Proof.
  unfold converted_item. cbn [convert_parts].
  destruct (member "type" item) as [[| | |type| |]|]; try reflexivity.
  destruct (String.eqb_spec type "text") as [->|_].
  - destruct (member "text" item); reflexivity.
  - destruct (String.eqb_spec type "image") as [->|_].
    + destruct (member "blob" item); reflexivity.
    + destruct (String.eqb_spec type "audio") as [->|_].
      * destruct (member "blob" item); reflexivity.
      * reflexivity.
Qed.

Lemma convert_parts_items (items : list Json) :
  forall acc,
    convert_parts items acc
    = match converted_items items with
      | Returned parts => Returned (acc ++ parts)%list
      | Thrown e m => Thrown e m
      end.
Proof.
  induction items as [|item items IH]; intros acc.
  - simpl. now rewrite app_nil_r.
  - rewrite convert_parts_cons. cbn [converted_items].
    destruct (converted_item item) as [[p|]|e m]; [| |reflexivity].
    + rewrite IH. destruct (converted_items items); [|reflexivity].
      now rewrite <- app_assoc.
    + rewrite IH. destruct (converted_items items); reflexivity.
Qed.

Lemma Convert_last_message (messages : Json) :
  ConvertToLiteRtJsonMessage messages
  = match last_message messages with
    | None =>
        Returned (Failed kInvalidArgument
                    "'messages' must be a non-empty array.")
    | Some l => ConvertToLiteRtJsonMessage (JArray [l])
    end.
Proof.
  destruct messages as [| | | |[|first others]|]; reflexivity.
Qed.

Lemma Convert_reads_only_the_last_message_aux
    (earlier : list Json) (l : Json) :
  ConvertToLiteRtJsonMessage (JArray (earlier ++ [l])%list)
  = ConvertToLiteRtJsonMessage (JArray [l]).
Proof.
  rewrite Convert_last_message.
  destruct earlier as [|e earlier]; [reflexivity|].
  simpl app. cbn [last_message]. now rewrite last_last.
Qed.

(** Only the last message of the request is converted: the messages before
    it have no influence on the result, and the last message is converted
    as if it were alone. *)
Theorem Convert_reads_only_the_last_message
    (earlier earlier' : list Json) (l : Json) :
  ConvertToLiteRtJsonMessage (JArray (earlier ++ [l])%list)
  = ConvertToLiteRtJsonMessage (JArray (earlier' ++ [l])%list).
Proof.
  rewrite !Convert_last_message.
  assert (Hlast : forall before,
            last_message (JArray (before ++ [l])%list) = Some l).
  { intros [|e before]; [reflexivity|].
    simpl app. cbn [last_message]. now rewrite last_last. }
  now rewrite !Hlast.
Qed.

(** The three InvalidArgument results and their messages: no non-empty
    array of messages; a last message without role or content; a content
    that is neither a string nor an array.  No other input gives an error
    status. *)
Theorem Convert_error_statuses (messages : Json) :
  (last_message messages = None ->
   ConvertToLiteRtJsonMessage messages
   = Returned (Failed kInvalidArgument
                 "'messages' must be a non-empty array.")) /\
  (forall l, last_message messages = Some l ->
     member "role" l = None \/ member "content" l = None ->
     ConvertToLiteRtJsonMessage messages
     = Returned (Failed kInvalidArgument
                   "Last message must have 'role' and 'content'.")) /\
  (forall l role content,
     last_message messages = Some l ->
     member "role" l = Some role -> member "content" l = Some content ->
     is_string content = false -> is_array content = false ->
     ConvertToLiteRtJsonMessage messages
     = Returned (Failed kInvalidArgument
                   "'content' must be a string or an array.")) /\
  (forall code msg,
     ConvertToLiteRtJsonMessage messages = Returned (Failed code msg) ->
     code = kInvalidArgument /\
     (last_message messages = None \/
      (exists l, last_message messages = Some l /\
                 (member "role" l = None \/ member "content" l = None)) \/
      (exists l content,
         last_message messages = Some l /\
         member "content" l = Some content /\
         is_string content = false /\ is_array content = false))).
Proof.
  rewrite Convert_last_message.
  destruct (last_message messages) as [l|]; repeat split;
    try discriminate; try congruence.
  - intros l' [= <-] Hmiss. cbn.
    destruct (member "role" l), (member "content" l);
      destruct Hmiss; try discriminate; reflexivity.
  - intros l' role content [= <-] Hr Hc Hs Ha. cbn. rewrite Hr, Hc.
    destruct content; try discriminate; reflexivity.
  - revert H. cbn.
    destruct (member "role" l), (member "content" l) as [[]|];
      try destruct (convert_parts _ _); congruence.
  - revert H. cbn.
    destruct (member "role" l) eqn:Hr,
             (member "content" l) as [content|] eqn:Hc.
    + destruct content; try destruct (convert_parts _ _); try discriminate;
        intros _; right; right; exists l; eexists; repeat split; eauto.
    + intros _. right; left. exists l. auto.
    + intros _. right; left. exists l. auto.
    + intros _. right; left. exists l. auto.
  - auto.
Qed.

Lemma converted_item_part (item p : Json) :
  converted_item item = Returned (Some p) -> converted_part p = true.
Proof.
  unfold converted_item.
  destruct (member "type" item) as [[| | |type| |]|]; try discriminate.
  destruct (String.eqb type "text");
    [|destruct (String.eqb type "image");
      [|destruct (String.eqb type "audio"); [|discriminate]]].
  - destruct (member "text" item); intros [= <-]; reflexivity.
  - destruct (member "blob" item); intros [= <-]; reflexivity.
  - destruct (member "blob" item); intros [= <-]; reflexivity.
Qed.

Lemma converted_items_parts (items : list Json) :
  forall parts,
    converted_items items = Returned parts ->
    forallb converted_part parts = true /\
    (List.length parts <= List.length items)%nat.
Proof.
  induction items as [|item items IH]; intros parts; cbn [converted_items].
  - intros [= <-]. split; [reflexivity | simpl; lia].
  - destruct (converted_item item) as [part|] eqn:Hitem; [|discriminate].
    destruct (converted_items items) as [ps|]; [|discriminate].
    destruct (IH ps eq_refl) as (Hall & Hlen).
    intros [= <-]. destruct part as [p|]; simpl.
    + rewrite (converted_item_part item p Hitem), Hall. split; [auto | lia].
    + split; [exact Hall | lia].
Qed.

Lemma converted_part_fixed (p : Json) :
  converted_part p = true -> converted_item p = Returned (Some p).
Proof.
  destruct p as [| | | | |members]; try discriminate.
  destruct members as [|[field v] [|[ty [| | |kind| |]] [|]]];
    try discriminate.
  cbn [converted_part]. intros H.
  apply andb_true_iff in H as (Hty & H).
  apply String.eqb_eq in Hty. subst ty.
  apply orb_true_iff in H as [H|H]; apply andb_true_iff in H as (Hf & Hk);
    apply String.eqb_eq in Hf; subst field.
  - apply String.eqb_eq in Hk. subst kind. reflexivity.
  - apply orb_true_iff in Hk as [Hk|Hk]; apply String.eqb_eq in Hk;
      subst kind; reflexivity.
Qed.

Lemma converted_parts_fixed (parts : list Json) :
  forallb converted_part parts = true ->
  converted_items parts = Returned parts.
Proof.
  induction parts as [|p parts IH]; [reflexivity|]. simpl.
  intros H. apply andb_true_iff in H as (Hp & Hps).
  rewrite (converted_part_fixed p Hp), (IH Hps). reflexivity.
Qed.

Lemma Convert_success_inv (messages out : Json) :
  ConvertToLiteRtJsonMessage messages = Returned (Value out) ->
  exists l role content content',
    last_message messages = Some l /\
    member "role" l = Some role /\
    member "content" l = Some content /\
    out = JObject [("content", content'); ("role", role)] /\
    ((exists s, content = JString s /\ content' = JString s) \/
     (exists items parts,
        content = JArray items /\ content' = JArray parts /\
        forallb converted_part parts = true /\
        (List.length parts <= List.length items)%nat)).
Proof.
  rewrite Convert_last_message.
  destruct (last_message messages) as [l|]; [|discriminate].
  cbn. destruct (member "role" l) as [role|] eqn:Hr; [|discriminate].
  destruct (member "content" l) as [content|] eqn:Hc; [|discriminate].
  destruct content as [| | |s|items|]; try discriminate.
  - intros [= <-]. exists l, role, (JString s), (JString s).
    split; [reflexivity|]. split; [exact Hr|]. split; [exact Hc|].
    split; [reflexivity|]. left. eauto.
  - rewrite convert_parts_items.
    destruct (converted_items items) as [parts|] eqn:Hitems; [|discriminate].
    intros [= <-]. exists l, role, (JArray items), (JArray parts).
    split; [reflexivity|]. split; [exact Hr|]. split; [exact Hc|].
    split; [reflexivity|]. right. exists items, parts.
    destruct (converted_items_parts items parts Hitems). auto.
Qed.

(** A successful conversion returns an object with exactly the members
    content and role; the role is that of the last message, and an array
    content holds only parts of the three emitted forms, at most one per
    part of the request: parts of another type, or without their payload,
    are dropped silently. *)
Theorem Convert_output_shape (messages out : Json) :
  ConvertToLiteRtJsonMessage messages = Returned (Value out) ->
  exists l role content content',
    last_message messages = Some l /\
    member "role" l = Some role /\
    member "content" l = Some content /\
    out = JObject [("content", content'); ("role", role)] /\
    ((exists s, content = JString s /\ content' = JString s) \/
     (exists items parts,
        content = JArray items /\ content' = JArray parts /\
        forallb converted_part parts = true /\
        (List.length parts <= List.length items)%nat)).
Proof.
  intros Hconv. rewrite Convert_last_message in Hconv.
  destruct (last_message messages) as [l|]; [|discriminate].
  cbn in Hconv.
  destruct (member "role" l) as [role|] eqn:Hr; [|discriminate].
  destruct (member "content" l) as [content|] eqn:Hc; [|discriminate].
  exists l, role, content.
  destruct content as [| | |s|items|]; try discriminate.
  - injection Hconv as <-. exists (JString s).
    repeat (split; [reflexivity || assumption|]). left. eauto.
  - rewrite convert_parts_items in Hconv.
    destruct (converted_items items) as [parts|] eqn:Hitems; [|discriminate].
    injection Hconv as <-. exists (JArray parts).
    repeat (split; [reflexivity || assumption|]). right.
    exists items, parts.
    destruct (converted_items_parts items parts Hitems). auto.
Qed.

(** Conversion is idempotent: its result, given back as the only message,
    is returned unchanged. *)
Theorem Convert_is_idempotent (messages out : Json) :
  ConvertToLiteRtJsonMessage messages = Returned (Value out) ->
  ConvertToLiteRtJsonMessage (JArray [out]) = Returned (Value out).
Proof.
  intros H.
  destruct (Convert_success_inv messages out H)
    as (l & role & content & content' & _ & _ & _ & -> & Hc).
  destruct Hc as [(s & _ & ->)|(items & parts & _ & -> & Hparts & _)].
  - reflexivity.
  - cbn. rewrite convert_parts_items, (converted_parts_fixed parts Hparts).
    reflexivity.
Qed.

(** A part whose ["type"] member is not a string makes the conversion
    throw [type_error] instead of returning a status. *)
Theorem Convert_throws_on_non_string_type
    (messages l role : Json) (items : list Json) (item type : Json) :
  last_message messages = Some l ->
  member "role" l = Some role ->
  member "content" l = Some (JArray items) ->
  In item items ->
  member "type" item = Some type ->
  is_string type = false ->
  ConvertToLiteRtJsonMessage messages
  = Thrown "json.exception.type_error.302" "type must be string".
Proof.
  intros Hl Hr Hc Hin Hty Hs.
  rewrite Convert_last_message, Hl. cbn. rewrite Hr, Hc.
  rewrite convert_parts_items.
  assert (Hthrow : converted_items items
                   = Thrown "json.exception.type_error.302"
                            "type must be string").
  { clear Hc. induction items as [|i items IH]; [destruct Hin|].
    cbn [converted_items]. destruct Hin as [->|Hin].
    - unfold converted_item. rewrite Hty.
      destruct type; try discriminate; reflexivity.
    - specialize (IH Hin).
      assert (Hi : forall e m, converted_item i = Thrown e m ->
                e = "json.exception.type_error.302" /\
                m = "type must be string").
      { unfold converted_item. intros e m.
        destruct (member "type" i) as [[| | |t| |]|];
          try (intros [= <- <-]; auto); try discriminate.
        repeat (destruct (String.eqb t _)); discriminate. }
      destruct (converted_item i) as [part|e m] eqn:Hci.
      + now rewrite IH.
      + destruct (Hi e m eq_refl) as [-> ->]. reflexivity. }
  now rewrite Hthrow.
Qed.

Variable Base64_encode : list Byte.byte -> string.

Lemma converted_item_Content (c : Content) :
  converted_item (Content_toJson Base64_encode c)
  = Returned (if inline_content c
              then Some (Content_toJson Base64_encode c) else None).
Proof. destruct c; reflexivity. Qed.

Lemma converted_items_Contents (cs : list Content) :
  converted_items (map (Content_toJson Base64_encode) cs)
  = Returned (map (Content_toJson Base64_encode) (filter inline_content cs)).
Proof.
  induction cs as [|c cs IH]; [reflexivity|].
  cbn [map converted_items filter].
  rewrite converted_item_Content, IH.
  destruct (inline_content c); reflexivity.
Qed.

(** A serialized Kotlin [Message] under a role goes through the
    conversion with its text and inline-bytes parts unchanged and in
    order, while the parts that refer to a file ([ImageFile], [AudioFile])
    are dropped: the conversion only looks for ["blob"]. *)
Theorem Convert_keeps_inline_contents_and_drops_files
    (earlier : list Json) (role : string) (cs : list Content) :
  ConvertToLiteRtJsonMessage
    (JArray (earlier ++ [wire_message Base64_encode role cs])%list)
  = Returned (Value (wire_message Base64_encode role
                       (filter inline_content cs))).
Proof.
  rewrite Convert_reads_only_the_last_message_aux.
  cbn. rewrite convert_parts_items, converted_items_Contents. reflexivity.
Qed.

End ConvertProperties.

(** ** The second version of the server *)

Section ServerProperties.
Import absl Json OpenAiServer MoreProps.

Lemma substring_all (s : string) :
  String.substring 0 (String.length s) s = s.
Proof. induction s as [|c s IH]; simpl; congruence. Qed.

Lemma substr_after (pre post : string) (c : ascii) :
  substr (String.length pre + 1) (pre ++ String c post) = post.
Proof.
  unfold substr. rewrite string_length_append. cbn [String.length].
  replace (String.length pre + S (String.length post)
           - (String.length pre + 1))%nat
    with (String.length post) by lia.
  induction pre as [|a pre IH]; simpl.
  - apply substring_all.
  - exact IH.
Qed.

Lemma find_first (c : ascii) (pre post : string) :
  free_of [c] pre = true ->
  find c (pre ++ String c post) = Some (String.length pre).
Proof.
  induction pre as [|a pre IH]; simpl.
  - now rewrite Ascii.eqb_refl.
  - rewrite orb_false_r. intros H. apply andb_true_iff in H as (Ha & Hpre).
    apply negb_true_iff in Ha. rewrite Ha, (IH Hpre). reflexivity.
Qed.

Lemma find_none (c : ascii) (s : string) :
  free_of [c] s = true -> find c s = None.
Proof.
  induction s as [|a s IH]; simpl; [reflexivity|].
  rewrite orb_false_r. intros H. apply andb_true_iff in H as (Ha & Hs).
  apply negb_true_iff in Ha. now rewrite Ha, (IH Hs).
Qed.

(** An image or audio part given as a data URL contributes the text after
    the first comma of the URL as its blob; a URL without a comma
    contributes nothing, and so does an object without a url. *)
Theorem data_url_blob_is_text_after_first_comma
    (kind : string) (url_obj : Json) (header data url : string) :
  (member "url" url_obj = Some (JString (header ++ String comma data)) ->
   free_of [comma] header = true ->
   data_url_part kind url_obj
   = Returned (Some (JObject [("blob", JString data);
                              ("type", JString kind)]))) /\
  (member "url" url_obj = Some (JString url) ->
   free_of [comma] url = true ->
   data_url_part kind url_obj = Returned None) /\
  (member "url" url_obj = None ->
   data_url_part kind url_obj = Returned None).
Proof.
  unfold data_url_part. repeat split.
  - intros -> Hfree. rewrite (find_first comma header data Hfree).
    now rewrite substr_after.
  - intros -> Hfree. now rewrite (find_none comma url Hfree).
  - intros ->. reflexivity.
Qed.

(** In a request, an image part with an [image_url] data URL becomes an
    image blob part, and an [audio_url] part becomes an audio blob part;
    the other members of the part are not copied. *)
Theorem Convert_data_url_parts
    (role : Json) (header data header' data' : string) :
  free_of [comma] header = true ->
  free_of [comma] header' = true ->
  ConvertToLiteRtJsonMessage
    (JArray
       [JObject
          [("content",
            JArray
              [JObject [("image_url",
                         JObject [("url",
                                   JString (header ++ String comma data))]);
                        ("type", JString "image")];
               JObject [("audio_url",
                         JObject [("url",
                                   JString (header' ++ String comma data'))]);
                        ("type", JString "audio_url")]]);
           ("role", role)]])
  = Returned
      (Value
         (JObject
            [("content",
              JArray [JObject [("blob", JString data);
                               ("type", JString "image")];
                      JObject [("blob", JString data');
                               ("type", JString "audio")]]);
             ("role", role)])).
Proof.
  intros Hh Hh'.
  assert (H1 : data_url_part "image"
                 (JObject [("url", JString (header ++ String comma data))])
               = Returned (Some (JObject [("blob", JString data);
                                          ("type", JString "image")]))).
  { unfold data_url_part. cbn [member get String.eqb Ascii.eqb Bool.eqb].
    cbn match. rewrite (find_first comma header data Hh), substr_after.
    reflexivity. }
  assert (H2 : data_url_part "audio"
                 (JObject [("url", JString (header' ++ String comma data'))])
               = Returned (Some (JObject [("blob", JString data');
                                          ("type", JString "audio")]))).
  { unfold data_url_part. cbn [member get String.eqb Ascii.eqb Bool.eqb].
    cbn match. rewrite (find_first comma header' data' Hh'), substr_after.
    reflexivity. }
  cbn -[data_url_part comma]. rewrite H1, H2. reflexivity.
Qed.

Lemma find_last_of_none (chars : list ascii) (s : string) :
  find_last_of chars s = None <-> free_of chars s = true.
Proof.
  induction s as [|a s IH]; simpl; [tauto|].
  destruct (find_last_of chars s) as [i|].
  - split; [discriminate|]. intros H. apply andb_true_iff in H as (_ & H).
    apply IH in H. discriminate.
  - destruct (existsb (Ascii.eqb a) chars); simpl.
    + split; discriminate.
    + split; [intros _; now apply IH | reflexivity].
Qed.

Lemma find_last_of_some (chars : list ascii) (s : string) :
  forall i, find_last_of chars s = Some i ->
  exists pre c post,
    s = pre ++ String c post /\ String.length pre = i /\
    existsb (Ascii.eqb c) chars = true /\ free_of chars post = true.
Proof.
  induction s as [|a s IH]; intros i; simpl; [discriminate|].
  destruct (find_last_of chars s) as [j|] eqn:Hrest.
  - intros [= <-].
    destruct (IH j eq_refl) as (pre & c & post & -> & <- & Hc & Hp).
    exists (String a pre), c, post. auto.
  - destruct (existsb (Ascii.eqb a) chars) eqn:Ha; [|discriminate].
    intros [= <-]. exists EmptyString, a, s. repeat split; auto.
    now apply find_last_of_none.
Qed.

(** The served model name: the [model_name] flag when it is given;
    otherwise the part of the model path after its last slash or
    backslash, which holds neither, is the whole path when the path holds
    neither, and is empty when the path ends in one. *)
Theorem model_name_is_last_path_component (flag model_path : string) :
  (flag <> EmptyString -> model_name flag model_path = flag) /\
  (exists dir,
     model_path = dir ++ model_name EmptyString model_path /\
     free_of [slash; backslash] (model_name EmptyString model_path) = true /\
     (dir = EmptyString \/
      exists d c, dir = d ++ String c EmptyString /\
                  (c = slash \/ c = backslash))) /\
  (forall dir c, c = slash \/ c = backslash ->
     model_name EmptyString (dir ++ String c EmptyString) = EmptyString).
Proof.
  unfold model_name. split; [|split].
  - destruct flag; [congruence | reflexivity].
  - cbn [String.length Nat.eqb].
    destruct (find_last_of [slash; backslash] model_path) as [i|] eqn:Hf.
    + destruct (find_last_of_some _ _ _ Hf)
        as (pre & c & post & -> & <- & Hc & Hp).
      rewrite substr_after. exists (pre ++ String c EmptyString).
      split; [|split].
      * clear. induction pre as [|a pre IH]; simpl; congruence.
      * exact Hp.
      * right. exists pre, c. split; [reflexivity|].
        simpl in Hc. rewrite orb_false_r in Hc.
        apply orb_true_iff in Hc as [Hc|Hc]; apply Ascii.eqb_eq in Hc; auto.
    + exists EmptyString. split; [reflexivity|]. split; [|now left].
      now apply find_last_of_none.
  - intros dir c Hc. cbn [String.length Nat.eqb].
    assert (Hf : find_last_of [slash; backslash] (dir ++ String c EmptyString)
                 = Some (String.length dir)).
    { induction dir as [|a dir IH]; simpl.
      - destruct Hc as [->| ->]; reflexivity.
      - now rewrite IH. }
    rewrite Hf. apply (substr_after dir EmptyString c).
Qed.

Lemma string_append_assoc (a b c : string) : (a ++ b) ++ c = a ++ (b ++ c).
Proof. induction a as [|x a IH]; simpl; congruence. Qed.

Lemma string_append_empty_r (a : string) : a ++ EmptyString = a.
Proof. induction a as [|x a IH]; simpl; congruence. Qed.

Lemma blocking_deliver_chunks (role : string) (texts : list string) :
  forall st rest,
    blocking_deliver st
      (map (fun t => Value (text_chunk role t)) texts ++ rest)%list
    = blocking_deliver
        {| full_reply_content :=
             full_reply_content st ++ String.concat EmptyString texts;
           stream_finished := stream_finished st;
           error_status := error_status st |}
        rest.
Proof.
  induction texts as [|t texts IH]; intros st rest.
  - simpl. rewrite string_append_empty_r. now destruct st.
  - cbn [map app blocking_deliver]. cbn [blocking_callback text_chunk is_null
        first_content_part member get String.eqb Ascii.eqb Bool.eqb].
    cbn. rewrite IH. cbn. f_equal. f_equal.
    rewrite string_append_assoc. f_equal.
    destruct texts; [now rewrite string_append_empty_r | reflexivity].
Qed.

(** The reply of a blocking request is the concatenation, in order, of the
    texts of the streamed chunks; the null message ends the stream and
    keeps the reply, an error status ends it and is recorded, and a chunk
    without a content array or without text is skipped. *)
Theorem blocking_reply_is_concatenation_of_chunks
    (role : string) (texts : list string) (code : StatusCode)
    (msg : string) (odd : Json) :
  blocking_deliver blocking_start
    (map (fun t => Value (text_chunk role t)) texts ++ [Value JNull])%list
  = Returned {| full_reply_content := String.concat EmptyString texts;
                stream_finished := true;
                error_status := OkStatus |} /\
  blocking_deliver blocking_start
    (map (fun t => Value (text_chunk role t)) texts
     ++ [Failed code msg])%list
  = Returned {| full_reply_content := String.concat EmptyString texts;
                stream_finished := true;
                error_status := Error code msg |} /\
  (is_null odd = false -> first_content_part odd = None ->
   forall st, blocking_callback st (Value odd) = Returned st).
Proof.
  split; [|split].
  - rewrite blocking_deliver_chunks. reflexivity.
  - rewrite blocking_deliver_chunks. reflexivity.
  - intros Hn Hf st. unfold blocking_callback. now rewrite Hn, Hf.
Qed.

End ServerProperties.

(** ** The further properties on concrete inputs *)

Lemma Create_succeeds_iff_witness :
  exists s,
    TopPCpuSampler.Create Instance.Generator Instance.make_generator
      Instance.float_to_string 40 Float32.nan Float32.nan 1 7
    = absl.Value s.
Proof.
  apply (proj2 (Create_succeeds_iff Instance.Generator
                  Instance.make_generator Instance.float_to_string
                  40 Float32.nan Float32.nan 1 7)).
  repeat split; try lia; left; reflexivity.
Defined.

Lemma ValidateTensor_checks_dimensions_first_witness :
  TopPCpuSampler.ValidateTensor Instance.NumSignificantDims
    (Instance.tensor [3; 4; 5] Instance.logits) 2 2 "input logits"
  = Some (absl.InvalidArgumentError
            ("The output input logits tensor must have <=2"
             ++ " significant dimension, but got 3"))
  /\
  TopPCpuSampler.ValidateTensor Instance.NumSignificantDims
    (Instance.tensor [] [Float32.zero]) 2 1 "input logits" = None.
Proof.
  split.
  - destruct (ValidateTensor_checks_dimensions_first
                Instance.NumSignificantDims
                (Instance.tensor [3; 4; 5] Instance.logits) 2 2
                "input logits" [3; 4; 5] eq_refl) as (H & _).
    rewrite H; [reflexivity | vm_compute; reflexivity].
  - apply (ValidateTensor_checks_dimensions_first
             Instance.NumSignificantDims
             (Instance.tensor [] [Float32.zero]) 2 1
             "input logits" [] eq_refl).
    split; [reflexivity | vm_compute; discriminate].
Defined.

Lemma SampleToIdAndScoreBuffer_keeps_configuration_witness :
  exists out,
    Instance.SampleToIdAndScoreBuffer Instance.sampler
      (Instance.tensor [2; 4] Instance.logits) (Instance.tensor [2] [0; 0])
      None = Some out /\
    TopPCpuSampler.k_ (TopPCpuSampler.sampler_after out) = 1 /\
    TopPCpuSampler.batch_size_ (TopPCpuSampler.sampler_after out) = 2.
Proof.
  destruct (Instance.SampleToIdAndScoreBuffer Instance.sampler
              (Instance.tensor [2; 4] Instance.logits)
              (Instance.tensor [2] [0; 0]) None) as [out|] eqn:Hrun;
    [|vm_compute in Hrun; discriminate].
  exists out. split; [reflexivity|].
  destruct (SampleToIdAndScoreBuffer_keeps_configuration
              Instance.Generator Instance.NumSignificantDims Instance.logf
              Instance.TopKTopPSampling Instance.sampler
              (Instance.tensor [2; 4] Instance.logits)
              (Instance.tensor [2] [0; 0]) None out Hrun)
    as (Hk & _ & _ & Hb).
  rewrite Hk, Hb. split; reflexivity.
Defined.

Lemma failure_before_sampling_changes_nothing_witness :
  Instance.SampleToIdAndScoreBuffer Instance.sampler
    (MoreInstance.untyped Instance.logits) (Instance.tensor [2] [0; 0]) None
  = Some {| TopPCpuSampler.result :=
              absl.Error absl.kInternal "no tensor type";
            TopPCpuSampler.sampler_after := Instance.sampler;
            TopPCpuSampler.ids_after := Instance.tensor [2] [0; 0];
            TopPCpuSampler.scores_after := None |} /\
  Instance.SampleToIdAndScoreBuffer Instance.sampler
    (Instance.tensor [2; 4] Instance.logits) (MoreInstance.untyped [0; 0])
    None
  = Some {| TopPCpuSampler.result :=
              absl.Error absl.kInternal "no tensor type";
            TopPCpuSampler.sampler_after := Instance.sampler;
            TopPCpuSampler.ids_after := MoreInstance.untyped [0; 0];
            TopPCpuSampler.scores_after := None |} /\
  Instance.SampleToIdAndScoreBuffer Instance.sampler
    (MoreInstance.unsized [2; 4] Instance.logits)
    (Instance.tensor [2] [0; 0]) None
  = Some {| TopPCpuSampler.result :=
              absl.Error absl.kInternal "no packed size";
            TopPCpuSampler.sampler_after := Instance.sampler;
            TopPCpuSampler.ids_after := Instance.tensor [2] [0; 0];
            TopPCpuSampler.scores_after := None |}.
Proof.
  split; [|split].
  - destruct (failure_before_sampling_changes_nothing
                Instance.Generator Instance.NumSignificantDims Instance.logf
                Instance.TopKTopPSampling Instance.sampler
                (MoreInstance.untyped Instance.logits)
                (Instance.tensor [2] [0; 0]) None
                absl.kInternal "no tensor type" [] []) as (H & _).
    apply H. reflexivity.
  - destruct (failure_before_sampling_changes_nothing
                Instance.Generator Instance.NumSignificantDims Instance.logf
                Instance.TopKTopPSampling Instance.sampler
                (Instance.tensor [2; 4] Instance.logits)
                (MoreInstance.untyped [0; 0]) None
                absl.kInternal "no tensor type" [4] []) as (_ & H & _).
    apply H; [reflexivity | vm_compute; discriminate | reflexivity].
  - destruct (failure_before_sampling_changes_nothing
                Instance.Generator Instance.NumSignificantDims Instance.logf
                Instance.TopKTopPSampling Instance.sampler
                (MoreInstance.unsized [2; 4] Instance.logits)
                (Instance.tensor [2] [0; 0]) None
                absl.kInternal "no packed size" [4] []) as (_ & _ & H).
    apply H; [reflexivity | vm_compute; discriminate | reflexivity
              | vm_compute; discriminate | reflexivity | reflexivity].
Defined.

Lemma sampling_failure_is_returned_witness :
  Instance.SampleToIdAndScoreBuffer Instance.sampler
    (Instance.tensor [2; 0] []) (Instance.tensor [2] [0; 0]) None
  = Some {| TopPCpuSampler.result :=
              absl.Error absl.kInvalidArgument "No candidate to sample from.";
            TopPCpuSampler.sampler_after := Instance.sampler;
            TopPCpuSampler.ids_after := Instance.tensor [2] [0; 0];
            TopPCpuSampler.scores_after := None |}.
Proof.
  apply (sampling_failure_is_returned
           Instance.Generator Instance.NumSignificantDims Instance.logf
           Instance.TopKTopPSampling Instance.sampler
           (Instance.tensor [2; 0] []) (Instance.tensor [2] [0; 0]) None
           [0] [] [] [] absl.kInvalidArgument "No candidate to sample from."
           [] 1);
    [reflexivity | vm_compute; discriminate | reflexivity
     | vm_compute; discriminate | reflexivity | reflexivity].
Defined.

Lemma successful_call_writes_ids_and_log_scores_witness :
  exists out,
    Instance.SampleToIdAndScoreBuffer Instance.sampler
      (Instance.tensor [2; 4] Instance.logits)
      (Instance.tensor [2] [0; 0; 9])
      (Some (Instance.tensor [2] [Float32.nan; Float32.nan]))
    = Some out /\
    TopPCpuSampler.result out = absl.OkStatus /\
    Tensor.contents (TopPCpuSampler.ids_after out) = [2; 1; 9].
Proof.
  eexists. split.
  - apply (successful_call_writes_ids_and_log_scores
             Instance.Generator Instance.NumSignificantDims Instance.logf
             Instance.TopKTopPSampling Instance.sampler
             (Instance.tensor [2; 4] Instance.logits)
             (Instance.tensor [2] [0; 0; 9])
             (Some (Instance.tensor [2] [Float32.nan; Float32.nan]))
             [4] [] Instance.logits [] [2; 1]
             [Float32.one; Float32.one] 3);
      [reflexivity | vm_compute; discriminate | reflexivity
       | vm_compute; discriminate
       | exists []; split; [reflexivity | vm_compute; discriminate]
       | reflexivity | reflexivity | simpl; lia].
  - split; reflexivity.
Defined.

Lemma too_few_sampled_scores_is_undefined_witness :
  TopPCpuSampler.SampleToIdAndScoreBuffer Instance.Generator
    Instance.NumSignificantDims Instance.logf MoreInstance.short_sampling
    Instance.sampler
    (Instance.tensor [2; 4] Instance.logits) (Instance.tensor [2] [0; 0])
    (Some (Instance.tensor [2] [Float32.nan; Float32.nan]))
  = None.
Proof.
  apply (too_few_sampled_scores_is_undefined
           Instance.Generator Instance.NumSignificantDims Instance.logf
           MoreInstance.short_sampling Instance.sampler
           (Instance.tensor [2; 4] Instance.logits)
           (Instance.tensor [2] [0; 0])
           (Instance.tensor [2] [Float32.nan; Float32.nan])
           [4] [] [] Instance.logits [] [2; 1] [Float32.one] 1);
    [reflexivity | vm_compute; discriminate | reflexivity
     | vm_compute; discriminate | reflexivity | vm_compute; discriminate
     | reflexivity | reflexivity | simpl; lia].
Defined.

Lemma scores_tensor_errors_name_the_scores_tensor_witness :
  Instance.SampleToIdAndScoreBuffer Instance.sampler
    (Instance.tensor [2; 4] Instance.logits) (Instance.tensor [2] [0; 0])
    (Some (Instance.tensor [3] [Float32.nan; Float32.nan; Float32.nan]))
  = Some {| TopPCpuSampler.result :=
              absl.InvalidArgumentError
                ("The output output scores tensor must have the same"
                 ++ " batch size as the input logits tensor,"
                 ++ " but got 3 vs 2");
            TopPCpuSampler.sampler_after :=
              TopPCpuSampler.with_state Instance.Generator Instance.sampler
                3 [];
            TopPCpuSampler.ids_after := Instance.tensor [2] [2; 1];
            TopPCpuSampler.scores_after :=
              Some (Instance.tensor [3]
                      [Float32.nan; Float32.nan; Float32.nan]) |}.
Proof.
  destruct (scores_tensor_errors_name_the_scores_tensor
              Instance.Generator Instance.NumSignificantDims Instance.logf
              Instance.TopKTopPSampling Instance.sampler
              (Instance.tensor [2; 4] Instance.logits)
              (Instance.tensor [2] [0; 0])
              (Instance.tensor [3] [Float32.nan; Float32.nan; Float32.nan])
              [4] [] Instance.logits [] [2; 1]
              [Float32.one; Float32.one] 3)
    as (_ & H & _);
    [reflexivity | vm_compute; discriminate | reflexivity
     | vm_compute; discriminate | reflexivity | reflexivity|].
  apply (H 3 []); [reflexivity | vm_compute; discriminate | discriminate].
Defined.

Lemma logits_buffer_follows_packed_size_witness :
  exists buffer,
    TopPCpuSampler.logits_span Instance.Generator Instance.sampler
      (MoreInstance.device [2; 4] Instance.logits)
    = absl.Value (buffer, buffer) /\
    List.length buffer = 8%nat.
Proof.
  destruct (logits_buffer_follows_packed_size
              Instance.Generator Instance.sampler
              (MoreInstance.device [2; 4] Instance.logits) 32)
    as (_ & H).
  destruct H as (buffer & Hspan & Hlen); [reflexivity | reflexivity|].
  exists buffer. split; [exact Hspan | exact Hlen].
Defined.

Lemma StripQuotes_shortens_by_two_iff_quoted_witness :
  String.length (ParserCommon.StripQuotes "'ab'") = 2%nat /\
  ParserCommon.StripQuotes "'it's'" = "it's".
Proof.
  split.
  - destruct (StripQuotes_shortens_by_two_iff_quoted "'ab'") as (H & _).
    rewrite H; [reflexivity|].
    split; [simpl; lia|]. exists ParserCommon.squote.
    repeat split. now left.
  - destruct (StripQuotes_shortens_by_two_iff_quoted "'it's'")
      as (_ & _ & H).
    apply (H ParserCommon.squote "it's"); [now left | reflexivity].
Defined.

Lemma Base64_stand_in_injective (b1 b2 : list Byte.byte) :
  Instance.Base64_encode b1 = Instance.Base64_encode b2 -> b1 = b2.
Proof.
  unfold Instance.Base64_encode. intros H.
  rewrite <- (list_byte_of_string_of_list_byte b1),
          <- (list_byte_of_string_of_list_byte b2).
  now rewrite H.
Qed.

Lemma Message_toJson_injective_witness :
  {| Kotlin.contents :=
       [Kotlin.Text "look"; Kotlin.ImageFile "/tmp/a.png"] |}
  = {| Kotlin.contents :=
         [Kotlin.Text "look"; Kotlin.ImageFile "/tmp/a.png"] |}.
Proof.
  apply (Message_toJson_injective Instance.Base64_encode).
  - exact Base64_stand_in_injective.
  - reflexivity.
Defined.

Lemma Convert_error_statuses_witness :
  OpenAiApi.ConvertToLiteRtJsonMessage (Json.JArray [])
  = Json.Returned (absl.Failed absl.kInvalidArgument
                     "'messages' must be a non-empty array.") /\
  OpenAiApi.ConvertToLiteRtJsonMessage
    (Json.JArray [Json.JObject [("role", Json.JString "user")]])
  = Json.Returned (absl.Failed absl.kInvalidArgument
                     "Last message must have 'role' and 'content'.") /\
  OpenAiApi.ConvertToLiteRtJsonMessage
    (Json.JArray [Json.JObject [("content", Json.JNumber 3);
                                ("role", Json.JString "user")]])
  = Json.Returned (absl.Failed absl.kInvalidArgument
                     "'content' must be a string or an array.").
Proof.
  split; [|split].
  - apply (Convert_error_statuses (Json.JArray [])). reflexivity.
  - destruct (Convert_error_statuses
                (Json.JArray [Json.JObject [("role", Json.JString "user")]]))
      as (_ & H & _).
    apply (H (Json.JObject [("role", Json.JString "user")])).
    + reflexivity.
    + right. reflexivity.
  - destruct (Convert_error_statuses
                (Json.JArray [Json.JObject [("content", Json.JNumber 3);
                                            ("role", Json.JString "user")]]))
      as (_ & _ & H & _).
    apply (H (Json.JObject [("content", Json.JNumber 3);
                            ("role", Json.JString "user")])
             (Json.JString "user") (Json.JNumber 3)); reflexivity.
Defined.

Lemma Convert_output_shape_witness :
  exists l role content content',
    MoreProps.last_message
      (Json.JArray [Json.JObject [("content", Json.JString "Hi");
                                  ("role", Json.JString "user")]])
    = Some l /\
    Json.member "role" l = Some role /\
    Json.member "content" l = Some content /\
    Json.JObject [("content", Json.JString "Hi");
                  ("role", Json.JString "user")]
    = Json.JObject [("content", content'); ("role", role)].
Proof.
  destruct (Convert_output_shape
              (Json.JArray [Json.JObject [("content", Json.JString "Hi");
                                          ("role", Json.JString "user")]])
              (Json.JObject [("content", Json.JString "Hi");
                             ("role", Json.JString "user")]) eq_refl)
    as (l & role & content & content' & Hl & Hr & Hc & Hout & _).
  exists l, role, content, content'. auto.
Defined.

Lemma Convert_is_idempotent_witness :
  OpenAiApi.ConvertToLiteRtJsonMessage
    (Json.JArray
       [Json.JObject
          [("content",
            Json.JArray
              [Json.JObject [("text", Json.JString "Hi");
                             ("type", Json.JString "text")]]);
           ("role", Json.JString "user")]])
  = Json.Returned
      (absl.Value
         (Json.JObject
            [("content",
              Json.JArray
                [Json.JObject [("text", Json.JString "Hi");
                               ("type", Json.JString "text")]]);
             ("role", Json.JString "user")])).
Proof.
  apply (Convert_is_idempotent
           (Json.JArray
              [Json.JObject [("content", Json.JString "be brief");
                             ("role", Json.JString "system")];
               Json.JObject
                 [("content",
                   Json.JArray
                     [Json.JObject [("detail", Json.JString "low");
                                    ("text", Json.JString "Hi");
                                    ("type", Json.JString "text")];
                      Json.JObject [("type", Json.JString "video")]]);
                  ("role", Json.JString "user")]])).
  reflexivity.
Defined.

Lemma Convert_throws_on_non_string_type_witness :
  OpenAiApi.ConvertToLiteRtJsonMessage
    (Json.JArray
       [Json.JObject
          [("content",
            Json.JArray
              [Json.JObject [("text", Json.JString "Hi");
                             ("type", Json.JString "text")];
               Json.JObject [("type", Json.JNumber 1)]]);
           ("role", Json.JString "user")]])
  = Json.Thrown "json.exception.type_error.302" "type must be string".
Proof.
  eapply (Convert_throws_on_non_string_type _ _ _ _
            (Json.JObject [("type", Json.JNumber 1)]) (Json.JNumber 1)).
  - reflexivity.
  - reflexivity.
  - reflexivity.
  - right. left. reflexivity.
  - reflexivity.
  - reflexivity.
Defined.

Lemma data_url_blob_is_text_after_first_comma_witness :
  OpenAiServer.data_url_part "image"
    (Json.JObject [("url", Json.JString "data:image/png;base64,iVBO,Rw0K")])
  = Json.Returned
      (Some (Json.JObject [("blob", Json.JString "iVBO,Rw0K");
                           ("type", Json.JString "image")])) /\
  OpenAiServer.data_url_part "image"
    (Json.JObject [("url", Json.JString "https://example.com/a.png")])
  = Json.Returned None.
Proof.
  split.
  - destruct (data_url_blob_is_text_after_first_comma "image"
                (Json.JObject
                   [("url", Json.JString "data:image/png;base64,iVBO,Rw0K")])
                "data:image/png;base64" "iVBO,Rw0K" EmptyString)
      as (H & _).
    apply H; reflexivity.
  - destruct (data_url_blob_is_text_after_first_comma "image"
                (Json.JObject
                   [("url", Json.JString "https://example.com/a.png")])
                EmptyString EmptyString "https://example.com/a.png")
      as (_ & H & _).
    apply H; reflexivity.
Defined.

Lemma Convert_data_url_parts_witness :
  exists out,
    OpenAiServer.ConvertToLiteRtJsonMessage
      (Json.JArray
         [Json.JObject
            [("content",
              Json.JArray
                [Json.JObject
                   [("image_url",
                     Json.JObject
                       [("url", Json.JString "data:image/png;base64,iVBO")]);
                    ("type", Json.JString "image")];
                 Json.JObject
                   [("audio_url",
                     Json.JObject
                       [("url", Json.JString "data:audio/wav;base64,UklG")]);
                    ("type", Json.JString "audio_url")]]);
             ("role", Json.JString "user")]])
    = Json.Returned (absl.Value out).
Proof.
  eexists.
  apply (Convert_data_url_parts (Json.JString "user")
           "data:image/png;base64" "iVBO" "data:audio/wav;base64" "UklG");
    reflexivity.
Defined.

Lemma model_name_is_last_path_component_witness :
  OpenAiServer.model_name "gemma" "/models/gemma3.litertlm" = "gemma" /\
  OpenAiServer.model_name EmptyString "C:\models\" = EmptyString.
Proof.
  split.
  - apply (model_name_is_last_path_component "gemma"
             "/models/gemma3.litertlm"). discriminate.
  - destruct (model_name_is_last_path_component EmptyString EmptyString)
      as (_ & _ & H).
    apply (H "C:\models" OpenAiServer.backslash). now right.
Defined.

Lemma blocking_reply_is_concatenation_of_chunks_witness :
  OpenAiServer.blocking_callback OpenAiServer.blocking_start
    (absl.Value (Json.JObject [("role", Json.JString "assistant")]))
  = Json.Returned OpenAiServer.blocking_start.
Proof.
  destruct (blocking_reply_is_concatenation_of_chunks
              "assistant" [] absl.kInternal EmptyString
              (Json.JObject [("role", Json.JString "assistant")]))
    as (_ & _ & H).
  apply H; reflexivity.
Defined.
